(** * MockTransaction: staging buffer, commit and rollback

    A shallow embedding of [src/firestore/MockTransaction.ts].

    Conventions of the embedding.
    - A JavaScript object used as a map ([transactionData],
      [transactionOperation], [collectionChanges]) is an ordered list of its
      own properties; [JsObject.own_entries] gives the order in which
      [for ... in] visits them (array-index keys first, ascending, then the
      other keys in insertion order).  The staging maps are keyed by
      document paths, [collection/document], which no member of
      [Object.prototype] is named like, so they are read as own properties;
      [collectionChanges] is keyed by collection paths, and there the
      lookup through [Object.prototype] is modelled ([push_change]).
    - Document data is a finite map from field names to values; the spread
      [{...a, ...b}] is the union in which [b] wins.
    - A value of TypeScript type [any] that the transaction stores is either
      [undefined] or an object: [option DocumentData].
    - A method that mutates [this] and may throw is a function from the
      transaction to the transaction after the call and a [Completion].
    - The collaborators ([MockDocumentReference], [MockFirebaseFirestore],
      [MockCollectionReference]) live outside this file of the repository;
      they enter as record fields and class methods. *)

From Stdlib Require Import ZArith NArith Ascii String.
From stdpp Require Import base option list strings gmap fin_maps.

Local Open Scope string_scope.
Local Open Scope Z_scope.

(** ** JavaScript strings: [lastIndexOf] and [substr] *)

Module JsString.

(** [s.lastIndexOf(c)] for a one-character needle: -1 when absent. *)
Fixpoint lastIndexOf (s : string) (c : ascii) : Z :=
  match s with
  | EmptyString => -1
  | String a r =>
      let i := lastIndexOf r c in
      if 0 <=? i then 1 + i
      else if Ascii.eqb a c then 0 else -1
  end.

(** [s.substr(0, len)]: a negative length gives the empty string. *)
Definition substr0 (s : string) (len : Z) : string :=
  if len <? 0 then "" else substring 0 (Z.to_nat len) s.

Definition is_digit (a : ascii) : bool :=
  ((48 <=? N_of_ascii a) && (N_of_ascii a <=? 57))%N.

(** Decimal value of a string made of digits only. *)
Fixpoint digits_value (s : string) (acc : N) : option N :=
  match s with
  | EmptyString => Some acc
  | String a r =>
      if is_digit a
      then digits_value r (acc * 10 + (N_of_ascii a - 48))%N
      else None
  end.

(** A property key is an array index when it is the canonical decimal
    spelling of an integer below 2^32 - 1. *)
Definition array_index (s : string) : option N :=
  match s with
  | EmptyString => None
  | String a r =>
      if Ascii.eqb a "0" && negb (String.eqb r "") then None
      else match digits_value s 0 with
           | Some n => if (n <? 4294967295)%N then Some n else None
           | None => None
           end
  end.

Fixpoint has_char (c : ascii) (s : string) : bool :=
  match s with
  | EmptyString => false
  | String a r => Ascii.eqb a c || has_char c r
  end.

End JsString.

(** ** JavaScript objects as ordered own-property maps *)

Module JsObject.

Abbreviation t V := (list (string * V)).

Definition empty {V} : t V := [].

(** [o[k]] restricted to own properties. *)
Fixpoint get {V} (o : t V) (k : string) : option V :=
  match o with
  | [] => None
  | (k', v) :: r => if decide (k' = k) then Some v else get r k
  end.

(** [o[k] = v]: an existing key keeps its place, a new key goes last. *)
Fixpoint set {V} (k : string) (v : V) (o : t V) : t V :=
  match o with
  | [] => [(k, v)]
  | (k', v') :: r =>
      if decide (k' = k) then (k, v) :: r else (k', v') :: set k v r
  end.

Definition keys {V} (o : t V) : list string := map fst o.

Definition wf {V} (o : t V) : Prop := NoDup (keys o).

(** Insert an indexed entry in a list kept ascending by index. *)
Fixpoint insert_by_index {V} (n : N) (e : string * V)
    (l : list (N * (string * V))) : list (N * (string * V)) :=
  match l with
  | [] => [(n, e)]
  | (m, e') :: r =>
      if (n <? m)%N then (n, e) :: (m, e') :: r
      else (m, e') :: insert_by_index n e r
  end.

Fixpoint index_entries {V} (o : t V) : list (N * (string * V)) :=
  match o with
  | [] => []
  | (k, v) :: r =>
      match JsString.array_index k with
      | Some n => insert_by_index n (k, v) (index_entries r)
      | None => index_entries r
      end
  end.

Fixpoint named_entries {V} (o : t V) : t V :=
  match o with
  | [] => []
  | (k, v) :: r =>
      match JsString.array_index k with
      | Some _ => named_entries r
      | None => (k, v) :: named_entries r
      end
  end.

(** The properties in the order [for (const k in o)] visits them. *)
Definition own_entries {V} (o : t V) : t V :=
  (map snd (index_entries o) ++ named_entries o)%list.

End JsObject.

(** ** Values *)

#[warnings="-register-all"]
Inductive FieldValue : Type :=
| FNull
| FBool (b : bool)
| FNumber (z : Z)
| FString (s : string)
| FObject (fields : list (string * FieldValue)).

Abbreviation DocumentData := (gmap string FieldValue).

(** A stored [any]: [None] is [undefined], [Some d] an object. *)
Abbreviation any := (option DocumentData).

Definition truthy (v : any) : bool := bool_decide (is_Some v).

(** [a || b] *)
Definition js_or (a b : any) : any :=
  match a with Some _ => a | None => b end.

(** [{ ...v }]: spreading [undefined] gives the empty object. *)
Definition spread (v : any) : DocumentData := default ∅ v.

(** [{ ...a, ...b }]: the keys of [b] win. *)
Definition spread2 (a : any) (b : DocumentData) : DocumentData := b ∪ spread a.

(** [o[k]] for an object whose values are [any]. *)
Definition js_get (o : JsObject.t any) (k : string) : any :=
  default None (JsObject.get o k).

Inductive DocumentChangeType : Type := Added | Removed | Modified.

Record SetOptions : Type := {
  merge : option bool;
  mergeFields : option (list string)
}.

(** [options && options.merge] as a condition. *)
Definition merge_requested (options : option SetOptions) : bool :=
  match options with
  | Some o => match merge o with Some b => b | None => false end
  | None => false
  end.

(** The first data argument of [update]. *)
Inductive UpdateArg : Type :=
| UData (d : DocumentData)
| UFieldPath (segments : list string)
| UString (field : string)
| UUndefined.

(** [typeof a === 'object'] *)
Definition typeof_object (a : UpdateArg) : bool :=
  match a with
  | UData _ | UFieldPath _ => true
  | UString _ | UUndefined => false
  end.

(** ** Errors and completions *)

Inductive Error : Type :=
| MockFirebaseValidationError (message : string)
| NotImplementedYet (message : string)
| CollaboratorError (message : string)
| TypeError (message : string).

Inductive Completion (A : Type) : Type :=
| Return (a : A)
| Throw (e : Error).
Arguments Return {A} a.
Arguments Throw {A} e.

(** The settled state of the promise an [async] method returns. *)
Inductive Promise (A : Type) : Type :=
| Resolved (a : A)
| Rejected (e : Error).
Arguments Resolved {A} a.
Arguments Rejected {A} e.

(** State and exception monad: the state survives a throw. *)
Definition M (S A : Type) : Type := S -> S * Completion A.

Definition ret {S A} (a : A) : M S A := fun s => (s, Return a).
Definition throw {S A} (e : Error) : M S A := fun s => (s, Throw e).
Definition bind {S A B} (m : M S A) (k : A -> M S B) : M S B :=
  fun s =>
    match m s with
    | (s', Return a) => k a s'
    | (s', Throw e) => (s', Throw e)
    end.
Definition read {S} : M S S := fun s => (s, Return s).
Definition modify {S} (f : S -> S) : M S unit := fun s => (f s, Return tt).
(** Lift the outcome of a call that does not touch the state. *)
Definition lift {S A} (c : Completion A) : M S A := fun s => (s, c).
(** [try { m } catch (e) { h e }] *)
Definition try_catch {S A} (m : M S A) (h : Error -> M S A) : M S A :=
  fun s =>
    match m s with
    | (s', Return a) => (s', Return a)
    | (s', Throw e) => h e s'
    end.

Notation "'do' x <- m ; k" := (bind m (fun x => k))
  (at level 10, x name, m at level 100, k at level 200).
Notation "m ;; k" := (bind m (fun _ => k))
  (at level 100, k at level 200, right associativity).

(** ** The document handle, as the staging methods use it *)

Record MockDocumentReference : Type := {
  path : string;
  data : any;
  updateInTransaction :
    DocumentData -> UpdateArg -> option (list FieldValue) -> Completion any;
  setInTransaction :
    DocumentData -> DocumentData -> option SetOptions -> Completion any
}.

(** ** The transaction *)

Record MockTransaction : Type := {
  transactionData : JsObject.t any;
  transactionOperation : JsObject.t DocumentChangeType;
  modified : bool
}.

(** [new MockTransaction(firestore)] *)
Definition new_transaction : MockTransaction :=
  {| transactionData := JsObject.empty;
     transactionOperation := JsObject.empty;
     modified := false |}.

Definition set_modified (b : bool) (t : MockTransaction) : MockTransaction :=
  {| transactionData := transactionData t;
     transactionOperation := transactionOperation t;
     modified := b |}.

Definition set_transactionData (p : string) (v : any) (t : MockTransaction)
  : MockTransaction :=
  {| transactionData := JsObject.set p v (transactionData t);
     transactionOperation := transactionOperation t;
     modified := modified t |}.

Definition set_transactionOperation (p : string) (c : DocumentChangeType)
    (t : MockTransaction) : MockTransaction :=
  {| transactionData := transactionData t;
     transactionOperation := JsObject.set p c (transactionOperation t);
     modified := modified t |}.

Definition read_before_write_message : string :=
  "Read operations can only be done before write operations.".

(** [get]: lines 54-63. *)
Definition get (documentRef : MockDocumentReference) : M MockTransaction any :=
  do this <- read;
  if modified this
  then throw (MockFirebaseValidationError read_before_write_message)
  else ret (data documentRef).

(** The document's current data as [set] sees it: lines 83-85. *)
Definition set_docData (this : MockTransaction)
    (documentRef : MockDocumentReference) : any :=
  js_or (js_get (transactionData this) (path documentRef))
        (match data documentRef with
         | Some d => Some (spread (Some d))
         | None => None
         end).

Definition changeType_of (docData : any) : DocumentChangeType :=
  if truthy docData then Modified else Added.

(** [set]: lines 75-104. *)
Definition set (documentRef : MockDocumentReference) (data : DocumentData)
    (options : option SetOptions) : M MockTransaction MockTransaction :=
  modify (set_modified true) ;;
  let path := path documentRef in
  do this <- read;
  let docData := set_docData this documentRef in
  let changeType := changeType_of docData in
  (if merge_requested options
   then
     let docData := spread2 docData data in
     do staged <- lift (updateInTransaction documentRef docData (UData data) None);
     modify (set_transactionData path staged)
   else
     let docData := spread (Some data) in
     do staged <- lift (setInTransaction documentRef docData data options);
     modify (set_transactionData path staged)) ;;
  modify (set_transactionOperation path changeType) ;;
  read.

(** The base data of [update]: line 131. *)
Definition update_base (this : MockTransaction)
    (documentRef : MockDocumentReference) : DocumentData :=
  match js_get (transactionData this) (path documentRef) with
  | Some d => d
  | None => spread (data documentRef)
  end.

(** [update]: lines 120-141. *)
Definition update (documentRef : MockDocumentReference)
    (dataOrField : UpdateArg) (moreFieldsAndValues : list FieldValue)
  : M MockTransaction MockTransaction :=
  modify (set_modified true) ;;
  if typeof_object dataOrField
  then
    let path := path documentRef in
    do this <- read;
    let data := update_base this documentRef in
    do staged <- lift (updateInTransaction documentRef data dataOrField
                         (Some moreFieldsAndValues));
    modify (set_transactionData path staged) ;;
    modify (set_transactionOperation path Modified) ;;
    read
  else throw (NotImplementedYet "MockTransaction.get").

(** [delete]: lines 150-157. *)
Definition delete (documentRef : MockDocumentReference)
  : M MockTransaction MockTransaction :=
  modify (set_modified true) ;;
  let path := path documentRef in
  modify (set_transactionData path None) ;;
  modify (set_transactionOperation path Removed) ;;
  read.

(** ** Call histories

    What a caller can do to a transaction before committing it.  A call that
    throws still leaves its effect on the transaction. *)

Inductive Call : Type :=
| CallGet (documentRef : MockDocumentReference)
| CallSet (documentRef : MockDocumentReference) (data : DocumentData)
    (options : option SetOptions)
| CallUpdate (documentRef : MockDocumentReference) (dataOrField : UpdateArg)
    (moreFieldsAndValues : list FieldValue)
| CallDelete (documentRef : MockDocumentReference).

Definition is_write (c : Call) : bool :=
  match c with
  | CallGet _ => false
  | CallSet _ _ _ | CallUpdate _ _ _ | CallDelete _ => true
  end.

Definition after_call (t : MockTransaction) (c : Call) : MockTransaction :=
  match c with
  | CallGet r => fst (get r t)
  | CallSet r d o => fst (set r d o t)
  | CallUpdate r a m => fst (update r a m t)
  | CallDelete r => fst (delete r t)
  end.

Definition after_calls (history : list Call) (t : MockTransaction)
  : MockTransaction :=
  fold_left after_call history t.

(** ** The store, as [commit] uses it *)

Record MockCollectionReference : Type := {
  collection_path : string
}.

Record MockQueryDocumentSnapshot : Type := {
  ref : MockDocumentReference;
  snapshot_data : any
}.

Record MockDocumentChange : Type := {
  change_type : DocumentChangeType;
  change_doc : MockQueryDocumentSnapshot;
  oldIndex : Z;
  newIndex : Z
}.

(** [firestore.doc] and [firestore.collection] resolve a path to a handle;
    the three other methods act on the store and may throw. *)
Class MockFirebaseFirestore (World : Type) : Type := {
  doc : string -> MockDocumentReference;
  collection : string -> MockCollectionReference;
  commitChange :
    MockDocumentReference -> DocumentChangeType -> any ->
    World -> World * Completion MockDocumentChange;
  fireDocumentChangeEvent :
    MockDocumentReference -> DocumentChangeType -> Z -> bool ->
    World -> World * Completion unit;
  fireBatchDocumentChange :
    MockCollectionReference -> list MockDocumentChange ->
    World -> World * Completion unit
}.

(** What [commit] does to the outside, in order. *)
Inductive Effect : Type :=
| CommitChange (d : MockDocumentReference) (operation : DocumentChangeType)
    (value : any)
| FireDocumentChangeEvent (r : MockDocumentReference)
    (type : DocumentChangeType) (oldIndex : Z) (fromCache : bool)
| FireBatchDocumentChange (c : MockCollectionReference)
    (documentChanges : list MockDocumentChange)
| ConsoleLog (message : string).

Record Run (World : Type) : Type := {
  world : World;
  effects : list Effect
}.
Arguments world {World} r.
Arguments effects {World} r.

(** A call to the store: recorded, then performed. *)
Definition perform {World A} (e : Effect)
    (f : World -> World * Completion A) : M (Run World) A :=
  fun r =>
    let (w, c) := f (world r) in
    ({| world := w; effects := (effects r ++ [e])%list |}, c).

Definition console_log {World} (message : string) : M (Run World) unit :=
  fun r =>
    ({| world := world r; effects := (effects r ++ [ConsoleLog message])%list |},
     Return tt).

Definition settle {A} (c : Completion A) : Promise A :=
  match c with
  | Return a => Resolved a
  | Throw e => Rejected e
  end.

Definition is_rollback (e : Effect) : bool :=
  match e with
  | ConsoleLog m => String.eqb m "rollback"
  | _ => false
  end.

(** How many times [rollback] has run. *)
Definition rollbacks (l : list Effect) : nat := length (filter is_rollback l).

(** [path.substr(0, path.lastIndexOf('/'))]: line 172. *)
Definition collectionPath_of (path : string) : string :=
  JsString.substr0 path (JsString.lastIndexOf path "/").

(** The names every object inherits from [Object.prototype]. *)
Definition object_prototype_members : list string :=
  ["constructor"; "__defineGetter__"; "__defineSetter__"; "hasOwnProperty";
   "__lookupGetter__"; "__lookupSetter__"; "isPrototypeOf";
   "propertyIsEnumerable"; "toString"; "valueOf"; "__proto__";
   "toLocaleString"].

Definition inherited (k : string) : bool :=
  bool_decide (k ∈ object_prototype_members).

(** [collectionChanges[collectionPath] || []] and
    [changes.push(documentChange)]: lines 173-175.  A collection path that
    is no own property but names a member of [Object.prototype] yields that
    member, a function or an object without [push]: the call throws. *)
Definition push_change
    (collectionChanges : JsObject.t (list MockDocumentChange))
    (collectionPath : string) (documentChange : MockDocumentChange)
  : Completion (list MockDocumentChange) :=
  match JsObject.get collectionChanges collectionPath with
  | Some changes => Return (changes ++ [documentChange])%list
  | None =>
      if inherited collectionPath
      then Throw (TypeError "changes.push is not a function")
      else Return [documentChange]
  end.

Section Commit.

Context {World : Type} {firestore : MockFirebaseFirestore World}.

(** [rollback]: lines 200-202. *)
Definition rollback : M (Run World) unit := console_log "rollback".

(** The first loop of [commit]: lines 164-177. *)
Fixpoint commit_paths (this : MockTransaction)
    (entries : JsObject.t DocumentChangeType)
    (collectionChanges : JsObject.t (list MockDocumentChange))
  : M (Run World) (JsObject.t (list MockDocumentChange)) :=
  match entries with
  | [] => ret collectionChanges
  | (path, operation) :: rest =>
      let d := doc path in
      let value := js_get (transactionData this) path in
      do documentChange <-
        perform (CommitChange d operation value) (commitChange d operation value);
      let collectionPath := collectionPath_of path in
      do changes <-
        lift (push_change collectionChanges collectionPath documentChange);
      commit_paths this rest (JsObject.set collectionPath changes collectionChanges)
  end.

(** The inner loop: lines 181-188. *)
Fixpoint fire_documents (documentChanges : list MockDocumentChange)
  : M (Run World) unit :=
  match documentChanges with
  | [] => ret tt
  | document :: rest =>
      let r := ref (change_doc document) in
      perform
        (FireDocumentChangeEvent r (change_type document) (oldIndex document) false)
        (fireDocumentChangeEvent r (change_type document) (oldIndex document) false) ;;
      fire_documents rest
  end.

(** The second loop: lines 179-193. *)
Fixpoint fire_collections (entries : JsObject.t (list MockDocumentChange))
  : M (Run World) unit :=
  match entries with
  | [] => ret tt
  | (collectionId, documentChanges) :: rest =>
      fire_documents documentChanges ;;
      let c := collection collectionId in
      perform (FireBatchDocumentChange c documentChanges)
              (fireBatchDocumentChange c documentChanges) ;;
      fire_collections rest
  end.

(** The body of the [try]: lines 164-193. *)
Definition commit_try (this : MockTransaction) : M (Run World) unit :=
  do collectionChanges <-
    commit_paths this (JsObject.own_entries (transactionOperation this))
                 JsObject.empty;
  fire_collections (JsObject.own_entries collectionChanges).

(** [commit]: lines 159-198. *)
Definition commit (this : MockTransaction) (r : Run World)
  : Run World * Promise unit :=
  let (r', c) :=
    try_catch (commit_try this) (fun error => rollback ;; throw error) r in
  (r', settle c).

End Commit.

(** ** Sample collaborators *)

(** Modelled from the spec: the two staging primitives of the document
    handle, [MockDocumentReference.updateInTransaction] and
    [MockDocumentReference.setInTransaction], whose source file is not part
    of the sources at hand.  The spec (section 6) gives them as
    [stageAsUpdate(baseData, partialPayload, extraPairs) -> mergedData] and
    [stageAsSet(baseData, newPayload, options) -> resultData]. *)
Definition spec_updateInTransaction (baseData : DocumentData)
    (partialPayload : UpdateArg) (extraPairs : option (list FieldValue))
  : Completion any :=
  match partialPayload with
  | UData partial => Return (Some (partial ∪ baseData))
  | _ => Throw (NotImplementedYet "MockDocumentReference.updateInTransaction")
  end.

Definition spec_setInTransaction (baseData newPayload : DocumentData)
    (options : option SetOptions) : Completion any :=
  Return (Some (if merge_requested options then newPayload ∪ baseData
                else newPayload)).

Definition spec_handle (p : string) (d : any) : MockDocumentReference :=
  {| path := p; data := d;
     updateInTransaction := spec_updateInTransaction;
     setInTransaction := spec_setInTransaction |}.

(** The contract of the staging primitives that [spec_handle] meets: the
    handle hands back the merged, respectively the new, document. *)
Definition materializes (r : MockDocumentReference) : Prop :=
  (forall base partial more,
      updateInTransaction r base (UData partial) more
      = Return (Some (partial ∪ base)))
  /\ (forall base payload options,
         merge_requested options = false ->
         setInTransaction r base payload options = Return (Some payload)).

(** The part of that contract [set] relies on: asked to materialize a
    document that already holds the payload, the handle hands that document
    back. *)
Definition hands_back (r : MockDocumentReference) : Prop :=
  (forall base partial,
      partial ⊆ base ->
      updateInTransaction r base (UData partial) None = Return (Some base))
  /\ (forall payload options,
         merge_requested options = false ->
         setInTransaction r payload payload options = Return (Some payload)).

(** A store whose documents are kept by path; committing a change to the
    path [broken_path] fails. *)
Definition broken_path : string := "users/broken".

Definition sample_change (d : MockDocumentReference)
    (operation : DocumentChangeType) (value : any) : MockDocumentChange :=
  {| change_type := operation;
     change_doc := {| ref := d; snapshot_data := value |};
     oldIndex := -1;
     newIndex := 0 |}.

#[local] Instance sample_store : MockFirebaseFirestore (gmap string any) := {|
  doc := fun p => spec_handle p None;
  collection := fun p => {| collection_path := p |};
  commitChange := fun d operation value w =>
    if decide (path d = broken_path)
    then (w, Throw (CollaboratorError "commitChange failed"))
    else (<[path d := value]> w, Return (sample_change d operation value));
  fireDocumentChangeEvent := fun _ _ _ _ w => (w, Return tt);
  fireBatchDocumentChange := fun _ _ w => (w, Return tt)
|}.

Definition sample_run : Run (gmap string any) :=
  {| world := ∅; effects := [] |}.

Definition merge_true : option SetOptions :=
  Some {| merge := Some true; mergeFields := None |}.
Definition merge_false : option SetOptions :=
  Some {| merge := Some false; mergeFields := None |}.

(** The own properties of [o] named [k]. *)
Definition entries_for {V} (k : string) (o : JsObject.t V) : JsObject.t V :=
  filter (fun e => e.1 = k) o.

(** What [set] hands to the handle and stages: lines 88-101. *)
Definition staged_by_set (documentRef : MockDocumentReference) (docData : any)
    (data : DocumentData) (options : option SetOptions) : Completion any :=
  if merge_requested options
  then updateInTransaction documentRef (spread2 docData data) (UData data) None
  else setInTransaction documentRef (spread (Some data)) data options.

Definition payload_ab : DocumentData :=
  {[ "a" := FNumber 1; "b" := FNumber 2 ]}.
Definition current_ac : DocumentData :=
  {[ "a" := FNumber 0; "c" := FNumber 3 ]}.
Definition merged_abc : DocumentData :=
  {[ "a" := FNumber 1; "b" := FNumber 2; "c" := FNumber 3 ]}.

Definition alice : MockDocumentReference := spec_handle "users/alice" None.
Definition bob : MockDocumentReference :=
  spec_handle "users/bob" (Some current_ac).

Definition lobby : MockDocumentReference := spec_handle "rooms/lobby" None.
Definition broken : MockDocumentReference := spec_handle broken_path None.

(** Writes staged to [users/alice], [rooms/lobby] and [users/bob]. *)
Definition grouped_transaction : MockTransaction :=
  after_calls [CallSet alice payload_ab None;
               CallSet lobby payload_ab None;
               CallSet bob payload_ab merge_true] new_transaction.

(** Writes staged to [users/alice], [users/broken] and [users/bob]. *)
Definition failing_transaction : MockTransaction :=
  after_calls [CallSet alice payload_ab None;
               CallDelete broken;
               CallSet bob payload_ab None] new_transaction.

(** The state of a run after one more recorded effect. *)
Definition logged {World} (e : Effect) (r : Run World) : Run World :=
  {| world := world r; effects := (effects r ++ [e])%list |}.

(** A computation that never runs [rollback]. *)
Definition quiet {World A} (m : M (Run World) A) : Prop :=
  forall r, rollbacks (effects (fst (m r))) = rollbacks (effects r).

Section Notifications.

Context {World : Type} {firestore : MockFirebaseFirestore World}.

(** The per-document event of one change descriptor. *)
Definition document_event (document : MockDocumentChange) : Effect :=
  FireDocumentChangeEvent (ref (change_doc document)) (change_type document)
    (oldIndex document) false.

(** What one collection is told: its documents' events in order, then
    the one batch. *)
Definition notifications (entry : string * list MockDocumentChange)
  : list Effect :=
  (map document_event entry.2
   ++ [FireBatchDocumentChange (collection entry.1) entry.2])%list.

End Notifications.

(** A handle whose staging primitives throw. *)
Definition carol : MockDocumentReference :=
  {| path := "users/carol";
     data := Some current_ac;
     updateInTransaction := fun _ _ _ => Throw (CollaboratorError "update refused");
     setInTransaction := fun _ _ _ => Throw (CollaboratorError "set refused") |}.

(** A store that commits every change and whose collection sinks throw. *)
Definition deaf_store : MockFirebaseFirestore (list string) := {|
  doc := fun p => spec_handle p None;
  collection := fun p => {| collection_path := p |};
  commitChange := fun d operation value w =>
    ((w ++ [path d])%list, Return (sample_change d operation value));
  fireDocumentChangeEvent := fun _ _ _ _ w => (w, Return tt);
  fireBatchDocumentChange := fun _ _ w =>
    (w, Throw (CollaboratorError "listener failed"))
|}.

Definition deaf_run : Run (list string) := {| world := []; effects := [] |}.

(** A write staged to [users/alice], then one to a document of the
    collection [constructor]. *)
Definition prototype_transaction : MockTransaction :=
  after_calls [CallSet alice payload_ab None;
               CallSet (spec_handle "constructor/a" None) payload_ab None]
    new_transaction.

(** ** Vocabulary of the further facts *)

(** The path a call names. *)
Definition call_path (c : Call) : string :=
  match c with
  | CallGet r | CallSet r _ _ | CallUpdate r _ _ | CallDelete r => path r
  end.

(** Lines 172-176 for one committed change: the change joins the list of
    its collection, a new collection going last. *)
Definition group_change
    (collectionChanges : JsObject.t (list MockDocumentChange))
    (committed : string * MockDocumentChange)
  : JsObject.t (list MockDocumentChange) :=
  let collectionPath := collectionPath_of committed.1 in
  let changes :=
    default [] (JsObject.get collectionChanges collectionPath) in
  JsObject.set collectionPath (changes ++ [committed.2])%list collectionChanges.

Definition group_changes
    (collectionChanges : JsObject.t (list MockDocumentChange))
    (committed : list (string * MockDocumentChange))
  : JsObject.t (list MockDocumentChange) :=
  fold_left group_change committed collectionChanges.

(** The changes of the documents that lie directly in [collectionPath]. *)
Definition changes_in (collectionPath : string)
    (committed : list (string * MockDocumentChange))
  : list MockDocumentChange :=
  map snd (filter (fun pc => collectionPath_of pc.1 = collectionPath) committed).

Definition is_commitChange (e : Effect) : bool :=
  match e with
  | CommitChange _ _ _ => true
  | _ => false
  end.

Definition is_notification (e : Effect) : bool :=
  match e with
  | FireDocumentChangeEvent _ _ _ _ | FireBatchDocumentChange _ _ => true
  | _ => false
  end.

Section CommitVocabulary.

Context {World : Type} {firestore : MockFirebaseFirestore World}.

(** The call [commit] makes for one staged path: lines 165-171. *)
Definition commit_effect (this : MockTransaction)
    (entry : string * DocumentChangeType) : Effect :=
  CommitChange (doc entry.1) entry.2 (js_get (transactionData this) entry.1).

(** The changes the store returns when the entries are committed in turn,
    starting from the store [w] and ending in the store [w']. *)
Fixpoint commit_results (this : MockTransaction)
    (entries : JsObject.t DocumentChangeType) (w : World)
    (changes : list MockDocumentChange) (w' : World) : Prop :=
  match entries, changes with
  | [], [] => w' = w
  | (p, operation) :: entries, c :: changes =>
      exists w1,
        commitChange (doc p) operation (js_get (transactionData this) p) w
        = (w1, Return c)
        /\ commit_results this entries w1 changes w'
  | _, _ => False
  end.

(** A computation that records only effects of one sort. *)
Definition adds {A} (sort : Effect -> bool) (m : M (Run World) A) : Prop :=
  forall r, exists l,
    effects (fst (m r)) = (effects r ++ l)%list
    /\ Forall (fun e => sort e = true) l.

End CommitVocabulary.

(** * Facts *)

(** ** Ordered objects *)

Lemma get_set_eq {V} (o : JsObject.t V) k v :
  JsObject.get (JsObject.set k v o) k = Some v.
Proof.
  induction o as [|[k' v'] o IH]; simpl.
  - by rewrite decide_True.
  - destruct (decide (k' = k)) as [->|Hne]; simpl.
    + by rewrite decide_True.
    + by rewrite decide_False.
Qed.

Lemma get_set_ne {V} (o : JsObject.t V) k k' v :
  k <> k' -> JsObject.get (JsObject.set k v o) k' = JsObject.get o k'.
Proof.
  intros Hne. induction o as [|[k0 v0] o IH]; simpl.
  - by rewrite decide_False.
  - destruct (decide (k0 = k)) as [->|Hne0]; simpl.
    + by rewrite !decide_False.
    + by rewrite IH.
Qed.

Lemma keys_set {V} (o : JsObject.t V) k v :
  JsObject.keys (JsObject.set k v o)
  = if decide (k ∈ JsObject.keys o) then JsObject.keys o
    else (JsObject.keys o ++ [k])%list.
Proof.
  unfold JsObject.keys.
  induction o as [|[k' v'] o IH]; cbn [JsObject.set map fst app].
  - destruct (decide (k ∈ [])) as [Hin|_]; [by apply elem_of_nil in Hin | done].
  - destruct (decide (k' = k)) as [->|Hne]; cbn [map fst].
    + destruct (decide (k ∈ k :: map fst o)) as [_|Hnin]; [done |].
      exfalso. apply Hnin, list_elem_of_here.
    + rewrite IH.
      destruct (decide (k ∈ map fst o)) as [Hin|Hnin];
        destruct (decide (k ∈ k' :: map fst o)) as [Hin'|Hnin']; try done.
      * exfalso. by apply Hnin', list_elem_of_further.
      * apply elem_of_cons in Hin' as [?|?]; congruence.
Qed.

Lemma wf_set {V} (o : JsObject.t V) k v :
  JsObject.wf o -> JsObject.wf (JsObject.set k v o).
Proof.
  unfold JsObject.wf. intros Hwf. rewrite keys_set.
  destruct (decide (k ∈ JsObject.keys o)) as [Hin|Hnin]; [done |].
  apply NoDup_app. split; [done |]. split.
  - intros x Hx Hx'. apply list_elem_of_singleton in Hx'. by subst.
  - apply NoDup_singleton.
Qed.

Lemma entries_for_absent {V} (o : JsObject.t V) k :
  k ∉ JsObject.keys o -> entries_for k o = [].
Proof.
  unfold entries_for, JsObject.keys.
  induction o as [|[k' v'] o IH]; intros Hnin; [done |].
  cbn [map fst] in Hnin. apply not_elem_of_cons in Hnin as [Hne Hnin].
  rewrite filter_cons_False; [by apply IH | simpl; congruence].
Qed.

Lemma entries_for_set {V} (o : JsObject.t V) k v :
  JsObject.wf o -> entries_for k (JsObject.set k v o) = [(k, v)].
Proof.
  unfold JsObject.wf, JsObject.keys, entries_for.
  induction o as [|[k' v'] o IH]; cbn [JsObject.set map fst]; intros Hwf.
  - by rewrite filter_cons_True.
  - apply NoDup_cons in Hwf as [Hnin Hwf].
    destruct (decide (k' = k)) as [->|Hne].
    + rewrite filter_cons_True; [|done].
      f_equal. by apply entries_for_absent.
    + rewrite filter_cons_False; [|done]. by apply IH.
Qed.

(** ** The monad, run *)

Ltac run_method :=
  unfold get, set, update, delete, bind, ret, throw, read, modify, lift;
  cbn [fst snd modified transactionData transactionOperation set_modified
       set_transactionData set_transactionOperation].

Lemma after_call_get t r : after_call t (CallGet r) = t.
Proof. unfold after_call. run_method. by destruct (modified t). Qed.

Lemma modified_after_call t c :
  modified (after_call t c) = modified t || is_write c.
Proof.
  destruct c as [r|r d o|r a m|r]; cbn [is_write].
  - rewrite after_call_get. by rewrite orb_false_r.
  - rewrite orb_true_r. unfold after_call. run_method.
    destruct (merge_requested o).
    + by destruct (updateInTransaction r _ _ _).
    + by destruct (setInTransaction r _ _ _).
  - rewrite orb_true_r. unfold after_call. run_method.
    destruct (typeof_object a); [|done].
    by destruct (updateInTransaction r _ _ _).
  - by rewrite orb_true_r.
Qed.

Lemma modified_after_calls history t :
  modified (after_calls history t) = modified t || existsb is_write history.
Proof.
  unfold after_calls. revert t.
  induction history as [|c history IH]; intros t; cbn [fold_left existsb].
  - by rewrite orb_false_r.
  - rewrite IH, modified_after_call. by rewrite orb_assoc.
Qed.

Lemma get_by_flag t r :
  get r t
  = (t, if modified t
        then Throw (MockFirebaseValidationError read_before_write_message)
        else Return (data r)).
Proof. run_method. by destruct (modified t). Qed.

(** ** Reads *)

(** C2: on a transaction built by any history of calls, [get] throws the
    validation error as soon as the history holds a call of [set], [update]
    or [delete]; with no such call it returns the handle's data.  Either
    way the transaction is left as it was. *)
Theorem read_before_write history documentRef :
  get documentRef (after_calls history new_transaction)
  = (after_calls history new_transaction,
     if existsb is_write history
     then Throw (MockFirebaseValidationError read_before_write_message)
     else Return (data documentRef)).
Proof.
  rewrite get_by_flag. by rewrite modified_after_calls.
Qed.

(** C8: while the write flag is down, [get] changes nothing in the
    transaction and returns the handle's own data, whatever the staging
    maps hold. *)
Theorem get_frame t documentRef :
  modified t = false ->
  get documentRef t = (t, Return (data documentRef)).
Proof. intros Hflag. by rewrite get_by_flag, Hflag. Qed.

Lemma get_frame_witness :
  let t := {| transactionData := [("users/bob", Some payload_ab)];
              transactionOperation := [("users/bob", Modified)];
              modified := false |} in
  modified t = false /\ get bob t = (t, Return (Some current_ac)).
Proof.
  split; [reflexivity |].
  apply (get_frame _ bob). reflexivity.
Defined.

(** ** Writes *)

Lemma delete_run t documentRef :
  delete documentRef t
  = (let t' := set_transactionOperation (path documentRef) Removed
                 (set_transactionData (path documentRef) None
                    (set_modified true t)) in
     (t', Return t')).
Proof. reflexivity. Qed.

(** C5: [delete] returns the transaction it was called on, and in it the
    path has a single staged slot, whose value is absent and whose kind is
    [Removed], whatever was staged for the path before. *)
Theorem delete_dominates t documentRef :
  JsObject.wf (transactionData t) ->
  JsObject.wf (transactionOperation t) ->
  exists t',
    delete documentRef t = (t', Return t')
    /\ entries_for (path documentRef) (transactionData t')
       = [(path documentRef, None)]
    /\ entries_for (path documentRef) (transactionOperation t')
       = [(path documentRef, Removed)]
    /\ JsObject.get (transactionData t') (path documentRef) = Some None
    /\ JsObject.get (transactionOperation t') (path documentRef) = Some Removed.
Proof.
  intros Hd Ho. eexists. split; [apply delete_run |].
  cbn [transactionData transactionOperation set_transactionOperation
       set_transactionData set_modified].
  repeat split.
  - by apply entries_for_set.
  - by apply entries_for_set.
  - apply get_set_eq.
  - apply get_set_eq.
Qed.

Lemma delete_dominates_witness :
  let t := fst (set bob payload_ab None new_transaction) in
  exists t',
    delete bob t = (t', Return t')
    /\ entries_for "users/bob" (transactionData t') = [("users/bob", None)]
    /\ entries_for "users/bob" (transactionOperation t')
       = [("users/bob", Removed)]
    /\ JsObject.get (transactionData t') "users/bob" = Some None
    /\ JsObject.get (transactionOperation t') "users/bob" = Some Removed.
Proof.
  apply (delete_dominates (fst (set bob payload_ab None new_transaction)) bob).
  - vm_compute. apply NoDup_singleton.
  - vm_compute. apply NoDup_singleton.
Defined.

Lemma update_field_form t documentRef dataOrField moreFieldsAndValues :
  typeof_object dataOrField = false ->
  update documentRef dataOrField moreFieldsAndValues t
  = (set_modified true t, Throw (NotImplementedYet "MockTransaction.get")).
Proof. intros Hty. run_method. by rewrite Hty. Qed.

(** C7: [update] called with a first data argument that is not an object
    throws [NotImplementedYet] and leaves both staging maps as they were. *)
Theorem update_field_form_not_implemented
    t documentRef dataOrField moreFieldsAndValues :
  typeof_object dataOrField = false ->
  exists t',
    update documentRef dataOrField moreFieldsAndValues t
    = (t', Throw (NotImplementedYet "MockTransaction.get"))
    /\ transactionData t' = transactionData t
    /\ transactionOperation t' = transactionOperation t.
Proof.
  intros Hty. exists (set_modified true t).
  by rewrite update_field_form.
Qed.

Lemma update_field_form_not_implemented_witness :
  typeof_object (UString "fieldA") = false
  /\ exists t',
       update alice (UString "fieldA") [FNumber 5] new_transaction
       = (t', Throw (NotImplementedYet "MockTransaction.get"))
       /\ transactionData t' = transactionData new_transaction
       /\ transactionOperation t' = transactionOperation new_transaction.
Proof.
  split; [reflexivity |].
  apply (update_field_form_not_implemented new_transaction alice
           (UString "fieldA") [FNumber 5]).
  reflexivity.
Defined.

(** C9: the same call raises the write flag before it throws: nothing is
    staged, yet after it, and after whatever further calls, every [get]
    throws the validation error. *)
Theorem update_field_form_blocks_reads
    t documentRef dataOrField moreFieldsAndValues :
  typeof_object dataOrField = false ->
  let outcome := update documentRef dataOrField moreFieldsAndValues t in
  snd outcome = Throw (NotImplementedYet "MockTransaction.get")
  /\ modified (fst outcome) = true
  /\ transactionData (fst outcome) = transactionData t
  /\ transactionOperation (fst outcome) = transactionOperation t
  /\ forall history anyRef,
       snd (get anyRef (after_calls history (fst outcome)))
       = Throw (MockFirebaseValidationError read_before_write_message).
Proof.
  intros Hty outcome. subst outcome. rewrite update_field_form by done.
  cbn [fst snd]. repeat split.
  intros history anyRef.
  by rewrite get_by_flag, modified_after_calls.
Qed.

Lemma update_field_form_blocks_reads_witness :
  typeof_object (UString "fieldA") = false
  /\ snd (get alice
            (fst (update alice (UString "fieldA") [FNumber 5] new_transaction)))
     = Throw (MockFirebaseValidationError read_before_write_message).
Proof.
  split; [reflexivity |].
  destruct (update_field_form_blocks_reads new_transaction alice
              (UString "fieldA") [FNumber 5]) as (_ & _ & _ & _ & Hget);
    [reflexivity |].
  exact (Hget [] alice).
Defined.

Lemma set_run t documentRef data options :
  set documentRef data options t
  = match staged_by_set documentRef (set_docData t documentRef) data options with
    | Return staged =>
        let t' :=
          set_transactionOperation (path documentRef)
            (changeType_of (set_docData t documentRef))
            (set_transactionData (path documentRef) staged
               (set_modified true t)) in
        (t', Return t')
    | Throw e => (set_modified true t, Throw e)
    end.
Proof.
  run_method. unfold staged_by_set, set_docData.
  cbn [transactionData set_modified].
  destruct (merge_requested options).
  - by destruct (updateInTransaction documentRef _ _ _).
  - by destruct (setInTransaction documentRef _ _ _).
Qed.

Lemma set_returns t documentRef data options t' r :
  set documentRef data options t = (t', Return r) ->
  exists staged,
    staged_by_set documentRef (set_docData t documentRef) data options
    = Return staged
    /\ r = t'
    /\ t' = set_transactionOperation (path documentRef)
              (changeType_of (set_docData t documentRef))
              (set_transactionData (path documentRef) staged
                 (set_modified true t)).
Proof.
  rewrite set_run.
  destruct (staged_by_set documentRef _ data options) as [staged|e];
    [|discriminate].
  cbn zeta. intros [= <- <-]. by exists staged.
Qed.

(** Every transaction a caller can build has one slot per staged path. *)
Lemma wf_after_call t c :
  JsObject.wf (transactionData t) /\ JsObject.wf (transactionOperation t) ->
  JsObject.wf (transactionData (after_call t c))
  /\ JsObject.wf (transactionOperation (after_call t c)).
Proof.
  intros [Hd Ho]. destruct c as [r|r d o|r a m|r]; unfold after_call.
  - fold (after_call t (CallGet r)). by rewrite after_call_get.
  - rewrite set_run.
    destruct (staged_by_set r _ d o) as [staged|e]; cbn; [|done].
    split; by apply wf_set.
  - run_method. destruct (typeof_object a); [|done].
    destruct (updateInTransaction r _ _ _) as [staged|e]; cbn; [|done].
    split; by apply wf_set.
  - rewrite delete_run. cbn. split; by apply wf_set.
Qed.

Lemma wf_after_calls history :
  JsObject.wf (transactionData (after_calls history new_transaction))
  /\ JsObject.wf (transactionOperation (after_calls history new_transaction)).
Proof.
  unfold after_calls.
  assert (Hnew : JsObject.wf (transactionData new_transaction)
                 /\ JsObject.wf (transactionOperation new_transaction))
    by (split; apply NoDup_nil_2).
  revert Hnew. generalize new_transaction.
  induction history as [|c history IH]; intros t Ht; [done |].
  cbn [fold_left]. by apply IH, wf_after_call.
Qed.

(** C10: a [set] that follows [delete] on the same path finds the staged
    value absent and classifies from the handle's stored data: [Modified]
    when the handle has data, [Added] when it has none. *)
Theorem set_after_delete_classifies_from_store
    t deleted documentRef payload options t2 r :
  path deleted = path documentRef ->
  set documentRef payload options (fst (delete deleted t)) = (t2, Return r) ->
  js_get (transactionData (fst (delete deleted t))) (path documentRef) = None
  /\ set_docData (fst (delete deleted t)) documentRef = data documentRef
  /\ JsObject.get (transactionOperation t2) (path documentRef)
     = Some (match data documentRef with
             | Some _ => Modified
             | None => Added
             end).
Proof.
  intros Hpath Hset.
  assert (Hstaged :
    js_get (transactionData (fst (delete deleted t))) (path documentRef) = None).
  { rewrite delete_run. cbn [fst transactionData set_transactionOperation
      set_transactionData set_modified].
    unfold js_get. by rewrite Hpath, get_set_eq. }
  assert (Hdoc : set_docData (fst (delete deleted t)) documentRef
                 = data documentRef).
  { unfold set_docData. rewrite Hstaged. cbn [js_or].
    by destruct (data documentRef). }
  split; [done |]. split; [done |].
  apply set_returns in Hset as (staged & _ & _ & ->).
  cbn [transactionOperation set_transactionOperation].
  rewrite get_set_eq, Hdoc. by destruct (data documentRef).
Qed.

Lemma set_after_delete_classifies_from_store_witness :
  JsObject.get
    (transactionOperation
       (fst (set bob payload_ab None (fst (delete bob new_transaction)))))
    "users/bob" = Some Modified
  /\ JsObject.get
       (transactionOperation
          (fst (set alice payload_ab None (fst (delete alice new_transaction)))))
       "users/alice" = Some Added.
Proof.
  split.
  - refine (proj2 (proj2 (set_after_delete_classifies_from_store
      new_transaction bob bob payload_ab None _ _ eq_refl _))).
    vm_compute. reflexivity.
  - refine (proj2 (proj2 (set_after_delete_classifies_from_store
      new_transaction alice alice payload_ab None _ _ eq_refl _))).
    vm_compute. reflexivity.
Defined.

(** C3 as stated fails.  [users/alice] has no stored data and nothing is
    staged for it, so the state before the first [set] classifies as
    [Added]; after [set(alice, {a:1, b:2})] and [set(alice, {a:0, c:3})] the
    staged kind is [Modified].  Hence the kind after two [set]s is not in
    general the kind computed from the state before the first. *)
Lemma set_twice_kind_counterexample :
  (exists t1 t2,
      set alice payload_ab None new_transaction = (t1, Return t1)
      /\ set alice current_ac None t1 = (t2, Return t2)
      /\ changeType_of (set_docData new_transaction alice) = Added
      /\ JsObject.get (transactionOperation t2) (path alice) = Some Modified)
  /\ ~ (forall t documentRef A optionsA B optionsB t1 t2,
          set documentRef A optionsA t = (t1, Return t1) ->
          set documentRef B optionsB t1 = (t2, Return t2) ->
          JsObject.get (transactionOperation t2) (path documentRef)
          = Some (changeType_of (set_docData t documentRef))).
Proof.
  split.
  - exists (fst (set alice payload_ab None new_transaction)),
      (fst (set alice current_ac None
              (fst (set alice payload_ab None new_transaction)))).
    repeat split; vm_compute; reflexivity.
  - intros Hstated.
    specialize (Hstated new_transaction alice payload_ab None current_ac None
                  _ _ eq_refl eq_refl).
    vm_compute in Hstated. discriminate Hstated.
Qed.

(** C3, amended: two successive [set]s on a path leave one staged slot for
    it in each map.  Its value is what the handle returns for the second
    payload; its kind is computed anew by the second [set], from the value
    the first [set] staged: [Modified] when that value is present, and from
    the handle's stored data only when it is absent. *)
Theorem set_twice_overwrites t documentRef A optionsA B optionsB t1 t2 :
  JsObject.wf (transactionData t) ->
  JsObject.wf (transactionOperation t) ->
  set documentRef A optionsA t = (t1, Return t1) ->
  set documentRef B optionsB t1 = (t2, Return t2) ->
  exists stagedA stagedB,
    staged_by_set documentRef (set_docData t documentRef) A optionsA
    = Return stagedA
    /\ staged_by_set documentRef (js_or stagedA (data documentRef)) B optionsB
       = Return stagedB
    /\ entries_for (path documentRef) (transactionData t2)
       = [(path documentRef, stagedB)]
    /\ entries_for (path documentRef) (transactionOperation t2)
       = [(path documentRef,
           if truthy stagedA then Modified
           else changeType_of (data documentRef))].
Proof.
  intros Hd Ho HA HB.
  apply set_returns in HA as (stagedA & HstA & _ & Ht1).
  apply set_returns in HB as (stagedB & HstB & _ & Ht2).
  assert (Hdoc : set_docData t1 documentRef = js_or stagedA (data documentRef)).
  { rewrite Ht1. unfold set_docData, js_get.
    cbn [transactionData set_transactionOperation set_transactionData].
    rewrite get_set_eq. cbn [default]. by destruct (data documentRef). }
  exists stagedA, stagedB. rewrite <- Hdoc. split; [done |]. split; [done |].
  rewrite Ht2.
  cbn [transactionData transactionOperation set_transactionOperation
       set_transactionData set_modified].
  split.
  - apply entries_for_set. rewrite Ht1.
    cbn [transactionData set_transactionOperation set_transactionData].
    by apply wf_set.
  - rewrite entries_for_set.
    + rewrite Hdoc. by destruct stagedA.
    + rewrite Ht1. cbn [transactionOperation set_transactionOperation].
      by apply wf_set.
Qed.

Lemma set_twice_overwrites_witness :
  let t1 := fst (set alice payload_ab None new_transaction) in
  let t2 := fst (set alice current_ac None t1) in
  entries_for "users/alice" (transactionData t2)
  = [("users/alice", Some current_ac)]
  /\ entries_for "users/alice" (transactionOperation t2)
     = [("users/alice", Modified)].
Proof.
  destruct (set_twice_overwrites new_transaction alice payload_ab None
              current_ac None _ _ (NoDup_nil_2) (NoDup_nil_2) eq_refl eq_refl)
    as (stagedA & stagedB & HA & HB & Hd & Ho).
  injection HA as <-. injection HB as <-.
  split; [exact Hd | exact Ho].
Defined.

Lemma merged_abc_eq : payload_ab ∪ current_ac = merged_abc.
Proof. vm_compute. reflexivity. Qed.

Lemma set_stages_replace t documentRef payload options :
  materializes documentRef ->
  merge_requested options = false ->
  exists t',
    set documentRef payload options t = (t', Return t')
    /\ JsObject.get (transactionData t') (path documentRef)
       = Some (Some payload).
Proof.
  intros [_ Hset] Hm. rewrite set_run. unfold staged_by_set.
  rewrite Hm, Hset by done. cbn zeta. eexists. split; [reflexivity |].
  cbn [transactionData set_transactionOperation set_transactionData].
  by rewrite get_set_eq.
Qed.

Lemma materializes_hands_back r : materializes r -> hands_back r.
Proof.
  intros [Hupd Hset]. split.
  - intros base partial Hsub. rewrite Hupd. do 2 f_equal.
    by apply map_subseteq_union.
  - intros payload options Hm. by apply Hset.
Qed.

Lemma set_hands_back_merge t documentRef current payload options :
  hands_back documentRef ->
  set_docData t documentRef = Some current ->
  merge_requested options = true ->
  exists t',
    set documentRef payload options t = (t', Return t')
    /\ JsObject.get (transactionData t') (path documentRef)
       = Some (Some (payload ∪ current)).
Proof.
  intros [Hback _] Hcur Hm. rewrite set_run. unfold staged_by_set.
  rewrite Hm, Hcur. unfold spread2, spread. cbn [default].
  rewrite Hback by apply map_union_subseteq_l. cbn zeta.
  eexists. split; [reflexivity |].
  cbn [transactionData set_transactionOperation set_transactionData].
  by rewrite get_set_eq.
Qed.

Lemma set_hands_back_replace t documentRef payload options :
  hands_back documentRef ->
  merge_requested options = false ->
  exists t',
    set documentRef payload options t = (t', Return t')
    /\ JsObject.get (transactionData t') (path documentRef)
       = Some (Some payload).
Proof.
  intros [_ Hback] Hm. rewrite set_run. unfold staged_by_set.
  rewrite Hm. unfold spread. cbn [default]. rewrite Hback by done.
  cbn zeta. eexists. split; [reflexivity |].
  cbn [transactionData set_transactionOperation set_transactionData].
  by rewrite get_set_eq.
Qed.

(** C4: on a document whose current data is [{a:0, c:3}],
    [set(ref, {a:1, b:2})] with [merge] builds [{a:1, b:2, c:3}] itself, the
    payload laid over the current data, and without [merge] builds a copy
    [{a:1, b:2}] of the payload; it asks the handle to materialize that
    document, and with a handle that hands back the document it is asked to
    materialize, that document is what is staged. *)
Theorem set_merge_vs_replace t documentRef :
  hands_back documentRef ->
  set_docData t documentRef = Some current_ac ->
  (forall options,
      merge_requested options = true ->
      exists t',
        set documentRef payload_ab options t = (t', Return t')
        /\ JsObject.get (transactionData t') (path documentRef)
           = Some (Some merged_abc))
  /\ (forall options,
         merge_requested options = false ->
         exists t',
           set documentRef payload_ab options t = (t', Return t')
           /\ JsObject.get (transactionData t') (path documentRef)
              = Some (Some payload_ab)).
Proof.
  intros Hback Hcur. split; intros options Hm.
  - rewrite <- merged_abc_eq. by apply set_hands_back_merge.
  - by apply set_hands_back_replace.
Qed.

Lemma spec_handle_materializes p d : materializes (spec_handle p d).
Proof.
  split; [done |]. intros base payload options Hm.
  cbn [spec_handle setInTransaction]. unfold spec_setInTransaction.
  by rewrite Hm.
Qed.

Lemma set_merge_vs_replace_witness :
  JsObject.get
    (transactionData (fst (set bob payload_ab merge_true new_transaction)))
    "users/bob" = Some (Some merged_abc)
  /\ JsObject.get
       (transactionData (fst (set bob payload_ab None new_transaction)))
       "users/bob" = Some (Some payload_ab)
  /\ JsObject.get
       (transactionData (fst (set bob payload_ab merge_false new_transaction)))
       "users/bob" = Some (Some payload_ab).
Proof.
  destruct (set_merge_vs_replace new_transaction bob
              (materializes_hands_back _ (spec_handle_materializes _ _))
              eq_refl) as [Hmerge Hreplace].
  destruct (Hmerge merge_true eq_refl) as (t1 & E1 & G1).
  destruct (Hreplace None eq_refl) as (t2 & E2 & G2).
  destruct (Hreplace merge_false eq_refl) as (t3 & E3 & G3).
  rewrite E1, E2, E3. cbn [fst]. auto.
Defined.

(** ** Paths and collection paths *)

Lemma digits_value_slash s acc :
  JsString.has_char "/" s = true -> JsString.digits_value s acc = None.
Proof.
  revert acc. induction s as [|a s IH]; intros acc; cbn [JsString.has_char
    JsString.digits_value]; [discriminate |].
  destruct (Ascii.eqb_spec a "/") as [->|Hne]; cbn [orb].
  - reflexivity.
  - intros Hs. destruct (JsString.is_digit a); [by apply IH | done].
Qed.

Lemma array_index_slash s :
  JsString.has_char "/" s = true -> JsString.array_index s = None.
Proof.
  intros Hs. destruct s as [|a s]; [done |].
  unfold JsString.array_index.
  destruct (Ascii.eqb a "0" && negb (String.eqb s "")); [done |].
  by rewrite digits_value_slash.
Qed.

Lemma has_char_app c s1 s2 :
  JsString.has_char c (s1 +:+ s2)
  = JsString.has_char c s1 || JsString.has_char c s2.
Proof.
  induction s1 as [|a s1 IH]; simpl; [done |].
  by rewrite IH, orb_assoc.
Qed.

Lemma document_path_has_slash C d :
  JsString.has_char "/" (C +:+ "/" +:+ d) = true.
Proof.
  rewrite has_char_app. simpl. by rewrite orb_true_r.
Qed.

Lemma lastIndexOf_absent c s :
  JsString.has_char c s = false -> JsString.lastIndexOf s c = -1.
Proof.
  induction s as [|a s IH]; cbn [JsString.has_char JsString.lastIndexOf];
    [done |].
  intros [Ha Hs]%orb_false_iff. rewrite IH by done. cbn.
  by rewrite Ha.
Qed.

Lemma lastIndexOf_document_path C d :
  JsString.has_char "/" d = false ->
  JsString.lastIndexOf (C +:+ "/" +:+ d) "/" = Z.of_nat (String.length C).
Proof.
  intros Hd. induction C as [|a C IH].
  - simpl. by rewrite lastIndexOf_absent.
  - change (JsString.lastIndexOf (String a C +:+ "/" +:+ d) "/")
      with (let i := JsString.lastIndexOf (C +:+ "/" +:+ d) "/" in
            if 0 <=? i then 1 + i else if Ascii.eqb a "/" then 0 else -1).
    rewrite IH. cbn zeta. cbn [String.length].
    destruct (Z.leb_spec 0 (Z.of_nat (String.length C))); lia.
Qed.

Lemma substring_prefix s1 s2 :
  substring 0 (String.length s1) (s1 +:+ s2) = s1.
Proof.
  induction s1 as [|a s1 IH]; simpl.
  - by destruct s2.
  - by rewrite IH.
Qed.

Lemma collectionPath_of_document C d :
  JsString.has_char "/" d = false ->
  collectionPath_of (C +:+ "/" +:+ d) = C.
Proof.
  intros Hd. unfold collectionPath_of, JsString.substr0.
  rewrite lastIndexOf_document_path by done.
  destruct (Z.ltb_spec (Z.of_nat (String.length C)) 0); [lia |].
  rewrite Nat2Z.id. apply substring_prefix.
Qed.

Lemma index_entries_named {V} (o : JsObject.t V) :
  Forall (fun k => JsString.array_index k = None) (JsObject.keys o) ->
  JsObject.index_entries o = [] /\ JsObject.named_entries o = o.
Proof.
  unfold JsObject.keys.
  induction o as [|[k v] o IH]; [done |].
  cbn [map fst]. intros [Hk Ho]%Forall_cons.
  cbn [JsObject.index_entries JsObject.named_entries]. rewrite Hk.
  destruct (IH Ho) as [-> ->]. done.
Qed.

Lemma own_entries_named {V} (o : JsObject.t V) :
  Forall (fun k => JsString.array_index k = None) (JsObject.keys o) ->
  JsObject.own_entries o = o.
Proof.
  intros Ho. unfold JsObject.own_entries.
  by destruct (index_entries_named o Ho) as [-> ->].
Qed.

(** ** Commit *)

Lemma rollbacks_snoc l e :
  rollbacks (l ++ [e]) = (rollbacks l + if is_rollback e then 1 else 0)%nat.
Proof.
  unfold rollbacks. rewrite filter_app, length_app. f_equal.
  rewrite filter_cons, filter_nil.
  destruct (decide (is_rollback e)) as [He|He].
  - by apply Is_true_true in He as ->.
  - by apply Is_true_false in He as ->.
Qed.

Section CommitFacts.

Context {World : Type} {firestore : MockFirebaseFirestore World}.

Lemma quiet_ret {A} (a : A) : quiet (World := World) (ret a).
Proof. by intros r. Qed.

Lemma quiet_bind {A B} (m : M (Run World) A) (k : A -> M (Run World) B) :
  quiet m -> (forall a, quiet (k a)) -> quiet (bind m k).
Proof.
  intros Hm Hk r. unfold bind. specialize (Hm r).
  destruct (m r) as [r1 [a|e]]; cbn [fst] in *.
  - by rewrite Hk.
  - done.
Qed.

Lemma quiet_perform {A} e (f : World -> World * Completion A) :
  is_rollback e = false -> quiet (perform e f).
Proof.
  intros He r. unfold perform. destruct (f (world r)) as [w c].
  cbn [fst effects]. rewrite rollbacks_snoc, He. lia.
Qed.

Lemma quiet_fire_documents documentChanges :
  quiet (fire_documents documentChanges).
Proof.
  induction documentChanges as [|document rest IH]; cbn [fire_documents].
  - apply quiet_ret.
  - apply quiet_bind; [by apply quiet_perform | by intros _].
Qed.

Lemma quiet_fire_collections entries : quiet (fire_collections entries).
Proof.
  induction entries as [|[collectionId documentChanges] rest IH];
    cbn [fire_collections].
  - apply quiet_ret.
  - apply quiet_bind; [apply quiet_fire_documents | intros _].
    apply quiet_bind; [by apply quiet_perform | by intros _].
Qed.

Lemma quiet_lift {A} (c : Completion A) : quiet (World := World) (lift c).
Proof. by intros r. Qed.

Lemma quiet_commit_paths this entries collectionChanges :
  quiet (commit_paths this entries collectionChanges).
Proof.
  revert collectionChanges.
  induction entries as [|[p operation] rest IH]; intros collectionChanges;
    cbn [commit_paths].
  - apply quiet_ret.
  - apply quiet_bind; [by apply quiet_perform | intros documentChange].
    apply quiet_bind; [apply quiet_lift | intros changes]. apply IH.
Qed.

Lemma quiet_commit_try this : quiet (commit_try this).
Proof.
  unfold commit_try. apply quiet_bind; [apply quiet_commit_paths |].
  intros collectionChanges. apply quiet_fire_collections.
Qed.

Lemma commit_paths_app this pre post collectionChanges r :
  commit_paths this (pre ++ post) collectionChanges r
  = bind (commit_paths this pre collectionChanges)
         (fun collected => commit_paths this post collected) r.
Proof.
  revert collectionChanges r.
  induction pre as [|[p operation] pre IH]; intros collectionChanges r;
    [done |].
  cbn [app commit_paths]. unfold bind.
  destruct (perform _ _ r) as [r1 [documentChange|e]]; [|done].
  destruct (lift _ r1) as [r2 [changes|e]]; [|done].
  by rewrite IH.
Qed.

Lemma push_change_returns collectionChanges collectionPath documentChange l :
  push_change collectionChanges collectionPath documentChange = Return l ->
  l = (default [] (JsObject.get collectionChanges collectionPath)
       ++ [documentChange])%list
  /\ (is_Some (JsObject.get collectionChanges collectionPath)
      \/ inherited collectionPath = false).
Proof.
  unfold push_change.
  destruct (JsObject.get collectionChanges collectionPath) as [changes|].
  - intros [= <-]. split; [done | by left; eexists].
  - destruct (inherited collectionPath); [discriminate |].
    intros [= <-]. split; [done | by right].
Qed.

Lemma commit_paths_step this p operation rest collectionChanges r r' collected :
  commit_paths this ((p, operation) :: rest) collectionChanges r
  = (r', Return collected) ->
  exists w1 c,
    commitChange (doc p) operation (js_get (transactionData this) p) (world r)
    = (w1, Return c)
    /\ (is_Some (JsObject.get collectionChanges (collectionPath_of p))
        \/ inherited (collectionPath_of p) = false)
    /\ commit_paths this rest
         (JsObject.set (collectionPath_of p)
            (default [] (JsObject.get collectionChanges (collectionPath_of p))
             ++ [c])%list collectionChanges)
         {| world := w1;
            effects :=
              (effects r
               ++ [CommitChange (doc p) operation
                     (js_get (transactionData this) p)])%list |}
       = (r', Return collected).
Proof.
  cbn [commit_paths]. unfold bind, perform, lift.
  destruct (commitChange (doc p) operation _ (world r)) as [w1 [c|e]];
    [|discriminate].
  destruct (push_change collectionChanges (collectionPath_of p) c)
    as [changes|e] eqn:Hpush; [|discriminate].
  apply push_change_returns in Hpush as [-> Hown].
  intros Hrest. by exists w1, c.
Qed.

Lemma fire_documents_effects documentChanges r r' u :
  fire_documents documentChanges r = (r', Return u) ->
  effects r' = (effects r ++ map document_event documentChanges)%list.
Proof.
  revert r. induction documentChanges as [|document rest IH]; intros r;
    cbn [fire_documents map].
  - intros [= <- _]. by rewrite app_nil_r.
  - unfold bind, perform.
    destruct (fireDocumentChangeEvent _ _ _ _ (world r)) as [w [[]|e]];
      [|discriminate].
    intros Hrest. apply IH in Hrest. cbn [effects] in Hrest.
    by rewrite Hrest, <- app_assoc.
Qed.

Lemma fire_collections_effects entries r r' u :
  fire_collections entries r = (r', Return u) ->
  effects r' = (effects r ++ concat (map notifications entries))%list.
Proof.
  revert r.
  induction entries as [|[collectionId documentChanges] rest IH]; intros r;
    cbn [fire_collections map concat].
  - intros [= <- _]. by rewrite app_nil_r.
  - unfold bind at 1.
    destruct (fire_documents documentChanges r) as [r1 [[]|e]] eqn:Hdocs;
      [|discriminate].
    apply fire_documents_effects in Hdocs.
    unfold bind, perform.
    destruct (fireBatchDocumentChange _ _ (world r1)) as [w [[]|e]];
      [|discriminate].
    intros Hrest. apply IH in Hrest. cbn [effects] in Hrest.
    rewrite Hrest, Hdocs. unfold notifications. cbn [fst snd].
    by rewrite <- !app_assoc.
Qed.

Lemma commit_by_try this r :
  commit this r
  = match commit_try this r with
    | (r1, Return u) => (r1, Resolved u)
    | (r1, Throw e) => (logged (ConsoleLog "rollback") r1, Rejected e)
    end.
Proof.
  unfold commit, try_catch.
  by destruct (commit_try this r) as [r1 [u|e]].
Qed.

(** C6: when the body of [commit] throws, [commit] runs [rollback] once
    and rejects with the very error thrown; when it does not, [commit]
    resolves with no value and [rollback] does not run.  In particular a
    [commitChange] that throws on a staged path, the paths before it
    having been committed, makes [commit] reject with that error after
    one [rollback]. *)
Theorem commit_failure_rolls_back this r :
  (forall r1 e,
      commit_try this r = (r1, Throw e) ->
      commit this r = (logged (ConsoleLog "rollback") r1, Rejected e)
      /\ rollbacks (effects (fst (commit this r)))
         = S (rollbacks (effects r)))
  /\ (forall r1 u,
         commit_try this r = (r1, Return u) ->
         commit this r = (r1, Resolved tt)
         /\ rollbacks (effects (fst (commit this r)))
            = rollbacks (effects r))
  /\ (forall pre p operation post collected r1 w e,
         JsObject.own_entries (transactionOperation this)
         = (pre ++ (p, operation) :: post)%list ->
         commit_paths this pre JsObject.empty r = (r1, Return collected) ->
         commitChange (doc p) operation (js_get (transactionData this) p)
           (world r1) = (w, Throw e) ->
         commit this r
         = ({| world := w;
               effects :=
                 (effects r1
                  ++ [CommitChange (doc p) operation
                        (js_get (transactionData this) p);
                      ConsoleLog "rollback"])%list |},
            Rejected e)
         /\ rollbacks (effects (fst (commit this r)))
            = S (rollbacks (effects r))).
Proof.
  assert (Hthrow : forall r1 e,
    commit_try this r = (r1, Throw e) ->
    commit this r = (logged (ConsoleLog "rollback") r1, Rejected e)
    /\ rollbacks (effects (fst (commit this r)))
       = S (rollbacks (effects r))).
  { intros r1 e Htry. pose proof (quiet_commit_try this r) as Hq.
    rewrite commit_by_try, Htry in *. cbn [fst] in *.
    split; [done |]. unfold logged. cbn [effects].
    rewrite rollbacks_snoc, Hq. cbn. lia. }
  split; [exact Hthrow |]. split.
  - intros r1 [] Htry. pose proof (quiet_commit_try this r) as Hq.
    rewrite commit_by_try, Htry in *. by cbn [fst] in *.
  - intros pre p operation post collected r1 w e Hkeys Hpre Hfail.
    assert (Htry : commit_try this r
      = ({| world := w;
            effects := (effects r1
              ++ [CommitChange (doc p) operation
                    (js_get (transactionData this) p)])%list |},
         Throw e)).
    { unfold commit_try. rewrite Hkeys. unfold bind at 1.
      rewrite commit_paths_app. unfold bind at 1. rewrite Hpre.
      cbn [commit_paths]. unfold bind at 1. unfold perform.
      by rewrite Hfail. }
    destruct (Hthrow _ _ Htry) as [Hcommit Hcount].
    split; [|done]. rewrite Hcommit. unfold logged. cbn [world effects].
    by rewrite <- app_assoc.
Qed.

(** C1: with writes staged, in this order, to a document of collection
    [C1], a document of collection [C2] and another document of [C1], a
    [commit] that resolves has committed the three paths in that order,
    and has then told each collection once: [C1]'s batch is the first and
    the third change in that order, [C2]'s batch is the second change,
    and each batch comes after the document events of its own changes,
    fired in the order of the batch. *)
Theorem commit_groups_by_collection
    this C1 C2 d1 d2 d3 o1 o2 o3 (r r' : Run World) :
  let p1 := C1 +:+ "/" +:+ d1 in
  let p2 := C2 +:+ "/" +:+ d2 in
  let p3 := C1 +:+ "/" +:+ d3 in
  let v1 := js_get (transactionData this) p1 in
  let v2 := js_get (transactionData this) p2 in
  let v3 := js_get (transactionData this) p3 in
  JsString.has_char "/" d1 = false ->
  JsString.has_char "/" d2 = false ->
  JsString.has_char "/" d3 = false ->
  C1 <> C2 ->
  transactionOperation this = [(p1, o1); (p2, o2); (p3, o3)] ->
  commit this r = (r', Resolved tt) ->
  exists w1 w2 w3 c1 c2 c3,
    commitChange (doc p1) o1 v1 (world r) = (w1, Return c1)
    /\ commitChange (doc p2) o2 v2 w1 = (w2, Return c2)
    /\ commitChange (doc p3) o3 v3 w2 = (w3, Return c3)
    /\ (exists order,
           (order = [(C1, [c1; c3]); (C2, [c2])]
            \/ order = [(C2, [c2]); (C1, [c1; c3])])
           /\ order = JsObject.own_entries [(C1, [c1; c3]); (C2, [c2])]
           /\ effects r'
              = (effects r
                 ++ [CommitChange (doc p1) o1 v1;
                     CommitChange (doc p2) o2 v2;
                     CommitChange (doc p3) o3 v3]
                 ++ concat (map notifications order))%list).
Proof.
  intros p1 p2 p3 v1 v2 v3 Hd1 Hd2 Hd3 HC Hops Hcommit.
  rewrite commit_by_try in Hcommit.
  destruct (commit_try this r) as [r1 [[]|e]] eqn:Htry; [|discriminate].
  injection Hcommit as ->.
  unfold commit_try in Htry. rewrite Hops in Htry.
  rewrite own_entries_named in Htry.
  2:{ repeat constructor; apply array_index_slash, document_path_has_slash. }
  unfold bind at 1 in Htry.
  destruct (commit_paths this _ JsObject.empty r)
    as [r0 [collected|e]] eqn:Hpaths; [|discriminate].
  apply commit_paths_step in Hpaths as (w1 & c1 & E1 & _ & Hpaths).
  apply commit_paths_step in Hpaths as (w2 & c2 & E2 & _ & Hpaths).
  apply commit_paths_step in Hpaths as (w3 & c3 & E3 & _ & Hpaths).
  cbn [commit_paths] in Hpaths. unfold ret in Hpaths.
  injection Hpaths as <- <-.
  cbn [world effects] in *.
  subst p1 p2 p3. rewrite !collectionPath_of_document in Htry by done.
  cbn [JsObject.get JsObject.set JsObject.empty default app] in Htry.
  rewrite !(decide_False (P := C1 = C2)) in Htry by done.
  cbn [JsObject.get JsObject.set default app] in Htry.
  rewrite !(decide_True (P := C1 = C1)) in Htry by done.
  cbn [default app id] in Htry.
  apply fire_collections_effects in Htry. cbn [effects] in Htry.
  exists w1, w2, w3, c1, c2, c3.
  split; [exact E1 |]. split; [exact E2 |]. split; [exact E3 |].
  eexists. split; [|split; [reflexivity |]].
  - unfold JsObject.own_entries.
    cbn [JsObject.index_entries JsObject.named_entries].
    destruct (JsString.array_index C1) as [n1|];
      destruct (JsString.array_index C2) as [n2|];
      cbn [JsObject.insert_by_index map snd app]; auto.
    destruct (n1 <? n2)%N; cbn [map snd app]; auto.
  - rewrite Htry. by rewrite <- !app_assoc.
Qed.

End CommitFacts.

Lemma commit_failure_rolls_back_witness :
  snd (commit failing_transaction sample_run)
  = Rejected (CollaboratorError "commitChange failed")
  /\ rollbacks (effects (fst (commit failing_transaction sample_run))) = 1%nat.
Proof.
  destruct (commit_failure_rolls_back failing_transaction sample_run)
    as (_ & _ & Hpath).
  destruct (Hpath [("users/alice", Added)] broken_path Removed
              [("users/bob", Modified)] _ _ _ _ eq_refl eq_refl eq_refl)
    as [Hcommit Hcount].
  split; [by rewrite Hcommit | exact Hcount].
Defined.

Lemma commit_groups_by_collection_witness :
  exists order c1 c2 c3,
    order = [("users", [c1; c3]); ("rooms", [c2])]
    /\ effects (fst (commit grouped_transaction sample_run))
       = ([CommitChange (doc "users/alice") Added (Some payload_ab);
           CommitChange (doc "rooms/lobby") Added (Some payload_ab);
           CommitChange (doc "users/bob") Modified (Some merged_abc)]
          ++ concat (map notifications order))%list.
Proof.
  destruct (commit_groups_by_collection grouped_transaction
              "users" "rooms" "alice" "lobby" "bob" Added Added Modified
              sample_run (fst (commit grouped_transaction sample_run))
              eq_refl eq_refl eq_refl ltac:(discriminate) eq_refl eq_refl)
    as (w1 & w2 & w3 & c1 & c2 & c3 & _ & _ & _ & order & _ & Horder & Heff).
  exists order, c1, c2, c3. split; [exact Horder | exact Heff].
Defined.


(** * Further facts *)

(** ** Partial updates *)

Lemma update_run t documentRef dataOrField moreFieldsAndValues :
  typeof_object dataOrField = true ->
  update documentRef dataOrField moreFieldsAndValues t
  = match updateInTransaction documentRef (update_base t documentRef)
            dataOrField (Some moreFieldsAndValues) with
    | Return staged =>
        let t' :=
          set_transactionOperation (path documentRef) Modified
            (set_transactionData (path documentRef) staged
               (set_modified true t)) in
        (t', Return t')
    | Throw e => (set_modified true t, Throw e)
    end.
Proof.
  intros Hty. run_method. rewrite Hty. unfold update_base.
  cbn [transactionData set_modified].
  by destruct (updateInTransaction documentRef _ _ _).
Qed.

(** X1: [update] with an object argument (plain data or a [FieldPath]
    instance) whose handle call returns stages that result in the single
    slot of the path, with kind [Modified] whatever kind was staged before
    and whether or not the document has data, raises the write flag and
    returns the transaction. *)
Theorem update_object_form_stages_modified
    t documentRef dataOrField moreFieldsAndValues staged :
  JsObject.wf (transactionData t) ->
  JsObject.wf (transactionOperation t) ->
  typeof_object dataOrField = true ->
  updateInTransaction documentRef (update_base t documentRef) dataOrField
    (Some moreFieldsAndValues) = Return staged ->
  exists t',
    update documentRef dataOrField moreFieldsAndValues t = (t', Return t')
    /\ modified t' = true
    /\ entries_for (path documentRef) (transactionData t')
       = [(path documentRef, staged)]
    /\ entries_for (path documentRef) (transactionOperation t')
       = [(path documentRef, Modified)].
Proof.
  intros Hd Ho Hty Hcall. rewrite update_run, Hcall by done. cbn zeta.
  eexists. split; [reflexivity |].
  cbn [modified transactionData transactionOperation set_transactionOperation
       set_transactionData set_modified].
  split; [done |]. split; by apply entries_for_set.
Qed.

Lemma update_object_form_stages_modified_witness :
  exists t',
    update alice (UData payload_ab) []
      (fst (delete alice new_transaction)) = (t', Return t')
    /\ modified t' = true
    /\ entries_for "users/alice" (transactionData t')
       = [("users/alice", Some payload_ab)]
    /\ entries_for "users/alice" (transactionOperation t')
       = [("users/alice", Modified)].
Proof.
  apply (update_object_form_stages_modified
           (fst (delete alice new_transaction)) alice (UData payload_ab) []
           (Some payload_ab)).
  - vm_compute. apply NoDup_singleton.
  - vm_compute. apply NoDup_singleton.
  - reflexivity.
  - vm_compute. reflexivity.
Defined.

Lemma update_stages t documentRef partial moreFieldsAndValues :
  materializes documentRef ->
  exists t',
    update documentRef (UData partial) moreFieldsAndValues t = (t', Return t')
    /\ JsObject.get (transactionData t') (path documentRef)
       = Some (Some (partial ∪ update_base t documentRef))
    /\ JsObject.get (transactionOperation t') (path documentRef)
       = Some Modified.
Proof.
  intros [Hupd _]. rewrite update_run, Hupd by done. cbn zeta.
  eexists. split; [reflexivity |].
  cbn [transactionData transactionOperation set_transactionOperation
       set_transactionData set_modified].
  by rewrite !get_set_eq.
Qed.

(** X2: [update] makes no existence check.  On a document without stored
    data and with nothing staged for its path, a handle that returns what
    it materializes stages exactly the partial payload, and the kind is
    [Modified], not [Added]. *)
Theorem update_on_missing_document t documentRef partial moreFieldsAndValues :
  materializes documentRef ->
  data documentRef = None ->
  js_get (transactionData t) (path documentRef) = None ->
  exists t',
    update documentRef (UData partial) moreFieldsAndValues t = (t', Return t')
    /\ JsObject.get (transactionData t') (path documentRef)
       = Some (Some partial)
    /\ JsObject.get (transactionOperation t') (path documentRef)
       = Some Modified.
Proof.
  intros Hmat Hdata Hstaged.
  destruct (update_stages t documentRef partial moreFieldsAndValues Hmat)
    as (t' & Hrun & Hvalue & Hkind).
  exists t'. split; [done |]. split; [|done].
  rewrite Hvalue. unfold update_base, spread.
  rewrite Hstaged, Hdata. cbn [default]. by rewrite (right_id_L ∅ (∪)).
Qed.

Lemma update_on_missing_document_witness :
  exists t',
    update alice (UData payload_ab) [] new_transaction = (t', Return t')
    /\ JsObject.get (transactionData t') "users/alice"
       = Some (Some payload_ab)
    /\ JsObject.get (transactionOperation t') "users/alice" = Some Modified.
Proof.
  apply (update_on_missing_document new_transaction alice payload_ab []
           (spec_handle_materializes _ _) eq_refl eq_refl).
Defined.

(** X3: an [update] that follows [delete] on the same path takes the
    handle's stored data as its base, since the staged value is absent, and
    turns the staged kind from [Removed] to [Modified]. *)
Theorem update_after_delete
    t deleted documentRef partial moreFieldsAndValues :
  materializes documentRef ->
  path deleted = path documentRef ->
  exists t',
    update documentRef (UData partial) moreFieldsAndValues
      (fst (delete deleted t)) = (t', Return t')
    /\ JsObject.get (transactionOperation (fst (delete deleted t)))
         (path documentRef) = Some Removed
    /\ JsObject.get (transactionData t') (path documentRef)
       = Some (Some (partial ∪ default ∅ (data documentRef)))
    /\ JsObject.get (transactionOperation t') (path documentRef)
       = Some Modified.
Proof.
  intros Hmat Hpath.
  destruct (update_stages (fst (delete deleted t)) documentRef partial
              moreFieldsAndValues Hmat) as (t' & Hrun & Hvalue & Hkind).
  exists t'. split; [done |]. split.
  - rewrite delete_run. cbn [fst transactionOperation set_transactionOperation].
    by rewrite Hpath, get_set_eq.
  - split; [|done]. rewrite Hvalue. unfold update_base, js_get.
    rewrite delete_run.
    cbn [fst transactionData set_transactionOperation set_transactionData
         set_modified].
    by rewrite Hpath, get_set_eq.
Qed.

Lemma update_after_delete_witness :
  exists t',
    update bob (UData payload_ab) [] (fst (delete bob new_transaction))
    = (t', Return t')
    /\ JsObject.get (transactionOperation (fst (delete bob new_transaction)))
         "users/bob" = Some Removed
    /\ JsObject.get (transactionData t') "users/bob"
       = Some (Some (payload_ab ∪ current_ac))
    /\ JsObject.get (transactionOperation t') "users/bob" = Some Modified.
Proof.
  apply (update_after_delete new_transaction bob bob payload_ab []
           (spec_handle_materializes _ _) eq_refl).
Defined.

(** X4: an [update] that follows a [set] without merge on the same path
    builds on the value the [set] staged, not on the stored document: with
    a handle that returns what it materializes, the staged value is the
    partial payload laid over the payload of the [set]. *)
Theorem update_after_set t documentRef payload options partial
    moreFieldsAndValues :
  materializes documentRef ->
  merge_requested options = false ->
  exists t1 t2,
    set documentRef payload options t = (t1, Return t1)
    /\ update documentRef (UData partial) moreFieldsAndValues t1
       = (t2, Return t2)
    /\ JsObject.get (transactionData t2) (path documentRef)
       = Some (Some (partial ∪ payload))
    /\ JsObject.get (transactionOperation t2) (path documentRef)
       = Some Modified.
Proof.
  intros Hmat Hm.
  destruct (set_stages_replace t documentRef payload options Hmat Hm)
    as (t1 & Hset & Hstaged).
  destruct (update_stages t1 documentRef partial moreFieldsAndValues Hmat)
    as (t2 & Hupd & Hvalue & Hkind).
  exists t1, t2. split; [done |]. split; [done |]. split; [|done].
  rewrite Hvalue. unfold update_base, js_get. by rewrite Hstaged.
Qed.

Lemma update_after_set_witness :
  exists t1 t2,
    set bob payload_ab None new_transaction = (t1, Return t1)
    /\ update bob (UData current_ac) [] t1 = (t2, Return t2)
    /\ JsObject.get (transactionData t2) "users/bob"
       = Some (Some (current_ac ∪ payload_ab))
    /\ JsObject.get (transactionOperation t2) "users/bob" = Some Modified.
Proof.
  apply (update_after_set new_transaction bob payload_ab None current_ac []
           (spec_handle_materializes _ _) eq_refl).
Defined.

(** ** First writes and failing handles *)

(** X5: on a document that has no stored data and nothing staged, [set]
    with [merge] lays the payload over nothing and so builds the payload
    itself, as it does without [merge]; with a handle that hands back the
    document it is asked to materialize, the payload is what is staged, and
    the write is classified [Added]. *)
Theorem set_on_missing_document t documentRef payload options :
  hands_back documentRef ->
  data documentRef = None ->
  js_get (transactionData t) (path documentRef) = None ->
  exists t',
    set documentRef payload options t = (t', Return t')
    /\ JsObject.get (transactionData t') (path documentRef)
       = Some (Some payload)
    /\ JsObject.get (transactionOperation t') (path documentRef)
       = Some Added.
Proof.
  intros [Hupd Hset] Hdata Hstaged. rewrite set_run.
  unfold staged_by_set, set_docData. rewrite Hstaged, Hdata. cbn [js_or].
  destruct (merge_requested options) eqn:Hm.
  - unfold spread2, spread. cbn [default].
    rewrite Hupd by apply map_union_subseteq_l. cbn zeta.
    eexists. split; [reflexivity |].
    cbn [transactionData transactionOperation set_transactionOperation
         set_transactionData set_modified].
    rewrite !get_set_eq. split; [|done].
    by rewrite (right_id_L ∅ (∪)).
  - unfold spread. cbn [default]. rewrite Hset by done. cbn zeta.
    eexists. split; [reflexivity |].
    cbn [transactionData transactionOperation set_transactionOperation
         set_transactionData set_modified].
    by rewrite !get_set_eq.
Qed.

Lemma set_on_missing_document_witness :
  exists t',
    set alice payload_ab merge_true new_transaction = (t', Return t')
    /\ JsObject.get (transactionData t') "users/alice"
       = Some (Some payload_ab)
    /\ JsObject.get (transactionOperation t') "users/alice" = Some Added.
Proof.
  apply (set_on_missing_document new_transaction alice payload_ab merge_true
           (materializes_hands_back _ (spec_handle_materializes _ _))
           eq_refl eq_refl).
Defined.

(** X6: when the handle's staging primitive throws, [set] throws the same
    error and stages nothing; the write flag is raised all the same, so a
    [get] that follows throws the validation error. *)
Theorem set_handle_failure t documentRef payload options e :
  staged_by_set documentRef (set_docData t documentRef) payload options
  = Throw e ->
  exists t',
    set documentRef payload options t = (t', Throw e)
    /\ transactionData t' = transactionData t
    /\ transactionOperation t' = transactionOperation t
    /\ forall anyRef,
         snd (get anyRef t')
         = Throw (MockFirebaseValidationError read_before_write_message).
Proof.
  intros Hcall. rewrite set_run, Hcall. eexists. split; [reflexivity |].
  split; [done |]. split; [done |]. intros anyRef. by rewrite get_by_flag.
Qed.

Lemma set_handle_failure_witness :
  exists t',
    set carol payload_ab None new_transaction
    = (t', Throw (CollaboratorError "set refused"))
    /\ transactionData t' = []
    /\ transactionOperation t' = []
    /\ forall anyRef,
         snd (get anyRef t')
         = Throw (MockFirebaseValidationError read_before_write_message).
Proof.
  apply (set_handle_failure new_transaction carol payload_ab None
           (CollaboratorError "set refused") eq_refl).
Defined.

(** X7: when the handle's [updateInTransaction] throws, [update] with an
    object argument throws the same error and stages nothing, not even the
    kind [Modified]; the write flag is raised all the same. *)
Theorem update_handle_failure
    t documentRef dataOrField moreFieldsAndValues e :
  typeof_object dataOrField = true ->
  updateInTransaction documentRef (update_base t documentRef) dataOrField
    (Some moreFieldsAndValues) = Throw e ->
  exists t',
    update documentRef dataOrField moreFieldsAndValues t = (t', Throw e)
    /\ transactionData t' = transactionData t
    /\ transactionOperation t' = transactionOperation t
    /\ modified t' = true.
Proof.
  intros Hty Hcall. rewrite update_run, Hcall by done.
  by eexists.
Qed.

Lemma update_handle_failure_witness :
  exists t',
    update carol (UData payload_ab) [] new_transaction
    = (t', Throw (CollaboratorError "update refused"))
    /\ transactionData t' = []
    /\ transactionOperation t' = []
    /\ modified t' = true.
Proof.
  apply (update_handle_failure new_transaction carol (UData payload_ab) []
           (CollaboratorError "update refused") eq_refl eq_refl).
Defined.

(** ** The staging maps over a history *)

Lemma after_call_cases t c :
  after_call t c = t
  \/ is_write c = true
     /\ (after_call t c = set_modified true t
         \/ exists staged kind,
              after_call t c
              = set_transactionOperation (call_path c) kind
                  (set_transactionData (call_path c) staged
                     (set_modified true t))).
Proof.
  destruct c as [r|r d o|r a m|r]; unfold after_call; cbn [call_path is_write].
  - left. fold (after_call t (CallGet r)). apply after_call_get.
  - right. split; [done |]. rewrite set_run.
    destruct (staged_by_set r _ d o) as [staged|e]; cbn [fst]; eauto.
  - right. split; [done |]. destruct (typeof_object a) eqn:Hty.
    + rewrite update_run by done.
      destruct (updateInTransaction r _ _ _) as [staged|e]; cbn [fst]; eauto.
    + rewrite update_field_form by done. cbn [fst]. eauto.
  - right. split; [done |]. rewrite delete_run. cbn [fst]. eauto.
Qed.

(** X8: a call touches the staged slots of no path but the one it names:
    for every other path both staging maps answer as before. *)
Theorem call_frames_other_paths t c q :
  q <> call_path c ->
  JsObject.get (transactionData (after_call t c)) q
  = JsObject.get (transactionData t) q
  /\ JsObject.get (transactionOperation (after_call t c)) q
     = JsObject.get (transactionOperation t) q.
Proof.
  intros Hq.
  destruct (after_call_cases t c) as [-> | [_ [-> | (staged & kind & ->)]]];
    [done | done |].
  cbn [transactionData transactionOperation set_transactionOperation
       set_transactionData set_modified].
  split; by apply get_set_ne.
Qed.

Lemma call_frames_other_paths_witness :
  let t := fst (set bob payload_ab None new_transaction) in
  JsObject.get (transactionData (after_call t (CallDelete alice))) "users/bob"
  = JsObject.get (transactionData t) "users/bob"
  /\ JsObject.get (transactionOperation (after_call t (CallDelete alice)))
       "users/bob"
     = JsObject.get (transactionOperation t) "users/bob".
Proof.
  apply (call_frames_other_paths
           (fst (set bob payload_ab None new_transaction)) (CallDelete alice)
           "users/bob").
  discriminate.
Defined.

Lemma keys_agree_after_call t c :
  JsObject.keys (transactionData t) = JsObject.keys (transactionOperation t) ->
  JsObject.keys (transactionData (after_call t c))
  = JsObject.keys (transactionOperation (after_call t c)).
Proof.
  intros Hkeys.
  destruct (after_call_cases t c) as [-> | [_ [-> | (staged & kind & ->)]]];
    [done | done |].
  cbn [transactionData transactionOperation set_transactionOperation
       set_transactionData set_modified].
  by rewrite !keys_set, Hkeys.
Qed.

(** X9: in every transaction built from a new one by calls, the two
    staging maps hold the same paths in the same order, each path once:
    every staged kind has its staged value beside it. *)
Theorem staging_maps_agree history :
  let t := after_calls history new_transaction in
  JsObject.keys (transactionData t) = JsObject.keys (transactionOperation t)
  /\ NoDup (JsObject.keys (transactionOperation t)).
Proof.
  cbn zeta. split; [|apply wf_after_calls].
  unfold after_calls.
  assert (Hnew : JsObject.keys (transactionData new_transaction)
                 = JsObject.keys (transactionOperation new_transaction))
    by done.
  revert Hnew. generalize new_transaction.
  induction history as [|c history IH]; intros t Ht; [done |].
  cbn [fold_left]. by apply IH, keys_agree_after_call.
Qed.

Lemma keys_grow_after_call t c :
  JsObject.keys (transactionOperation t)
  `prefix_of` JsObject.keys (transactionOperation (after_call t c)).
Proof.
  destruct (after_call_cases t c) as [-> | [_ [-> | (staged & kind & ->)]]];
    [done | done |].
  cbn [transactionOperation set_transactionOperation set_transactionData
       set_modified].
  rewrite keys_set.
  destruct (decide (call_path c ∈ JsObject.keys (transactionOperation t)));
    [done | by apply prefix_app_r].
Qed.

(** X10: calls never drop a staged path nor change the order of the staged
    paths: the paths staged before a history are a prefix of the paths
    staged after it. *)
Theorem staging_order_grows history t :
  JsObject.keys (transactionOperation t)
  `prefix_of` JsObject.keys (transactionOperation (after_calls history t)).
Proof.
  unfold after_calls. revert t.
  induction history as [|c history IH]; intros t; [done |].
  cbn [fold_left]. etrans; [apply (keys_grow_after_call t c) | apply IH].
Qed.

Lemma staged_path_origin history t p :
  p ∈ JsObject.keys (transactionOperation (after_calls history t)) ->
  p ∈ JsObject.keys (transactionOperation t)
  \/ exists c, c ∈ history /\ is_write c = true /\ call_path c = p.
Proof.
  unfold after_calls. revert t.
  induction history as [|c history IH]; intros t; cbn [fold_left];
    [by left |].
  intros Hp. destruct (IH _ Hp) as [Hin | (c' & Hc' & Hw & Hpath)].
  - destruct (after_call_cases t c) as [E | [Hw [E | (staged & kind & E)]]];
      rewrite E in Hin; [by left | by left |].
    cbn [transactionOperation set_transactionOperation set_transactionData
         set_modified] in Hin.
    rewrite keys_set in Hin.
    destruct (decide (call_path c ∈ JsObject.keys (transactionOperation t)));
      [by left |].
    apply elem_of_app in Hin as [Hin | Hin%list_elem_of_singleton];
      [by left |].
    right. exists c. split; [apply list_elem_of_here | done].
  - right. exists c'. split; [by apply list_elem_of_further | done].
Qed.

(** X11: a transaction stages no path of its own accord: every path staged
    in a transaction built from a new one was named by a [set], [update] or
    [delete] call of its history.  Reads stage nothing. *)
Theorem staged_paths_were_written history p :
  p ∈ JsObject.keys
        (transactionOperation (after_calls history new_transaction)) ->
  exists c, c ∈ history /\ is_write c = true /\ call_path c = p.
Proof.
  intros Hp. apply staged_path_origin in Hp as [Hnew | Hcall]; [|done].
  by apply elem_of_nil in Hnew.
Qed.

Lemma staged_paths_were_written_witness :
  exists c,
    c ∈ [CallGet bob; CallSet alice payload_ab None]
    /\ is_write c = true /\ call_path c = "users/alice".
Proof.
  apply (staged_paths_were_written
           [CallGet bob; CallSet alice payload_ab None] "users/alice").
  vm_compute. apply list_elem_of_here.
Defined.

(** ** The order of the own properties *)

Lemma insert_by_index_perm {V} n (e : string * V) l :
  map snd (JsObject.insert_by_index n e l) ≡ₚ e :: map snd l.
Proof.
  induction l as [|[m e'] l IH]; cbn [JsObject.insert_by_index map snd];
    [done |].
  destruct (n <? m)%N; cbn [map snd]; [done |].
  rewrite IH. apply Permutation_swap.
Qed.

Lemma own_entries_perm {V} (o : JsObject.t V) : JsObject.own_entries o ≡ₚ o.
Proof.
  unfold JsObject.own_entries.
  induction o as [|[k v] o IH];
    cbn [JsObject.index_entries JsObject.named_entries]; [done |].
  destruct (JsString.array_index k) as [n|].
  - rewrite insert_by_index_perm. cbn [app]. by rewrite IH.
  - rewrite <- Permutation_middle. by rewrite IH.
Qed.

(** ** Grouping by collection *)

Lemma get_group_change collectionChanges committed C :
  default [] (JsObject.get (group_change collectionChanges committed) C)
  = (default [] (JsObject.get collectionChanges C)
     ++ if decide (collectionPath_of committed.1 = C) then [committed.2]
        else [])%list.
Proof.
  unfold group_change. cbn zeta.
  destruct (decide (collectionPath_of committed.1 = C)) as [<-|Hne].
  - by rewrite get_set_eq.
  - rewrite get_set_ne by done. by rewrite app_nil_r.
Qed.

Lemma get_group_changes committed collectionChanges C :
  default [] (JsObject.get (group_changes collectionChanges committed) C)
  = (default [] (JsObject.get collectionChanges C)
     ++ changes_in C committed)%list.
Proof.
  unfold group_changes, changes_in. revert collectionChanges.
  induction committed as [|pc committed IH]; intros collectionChanges;
    cbn [fold_left].
  - by rewrite app_nil_r.
  - rewrite IH, get_group_change, <- app_assoc. f_equal.
    rewrite filter_cons.
    by destruct (decide (collectionPath_of pc.1 = C)).
Qed.

Lemma wf_group_changes committed collectionChanges :
  JsObject.wf collectionChanges ->
  JsObject.wf (group_changes collectionChanges committed).
Proof.
  unfold group_changes. revert collectionChanges.
  induction committed as [|pc committed IH]; intros collectionChanges Hwf;
    [done |].
  cbn [fold_left]. apply IH. unfold group_change. by apply wf_set.
Qed.

Lemma concat_set_snoc (o : JsObject.t (list MockDocumentChange)) k c :
  concat (map snd
            (JsObject.set k (default [] (JsObject.get o k) ++ [c])%list o))
  ≡ₚ (concat (map snd o) ++ [c])%list.
Proof.
  induction o as [|[k' l] o IH]; cbn [JsObject.get JsObject.set]; [done |].
  destruct (decide (k' = k)) as [->|Hne]; cbn [map snd concat default].
  - unfold id. rewrite <- !app_assoc. f_equiv. apply Permutation_app_comm.
  - rewrite IH. by rewrite app_assoc.
Qed.

Lemma concat_group_changes committed collectionChanges :
  concat (map snd (group_changes collectionChanges committed))
  ≡ₚ (concat (map snd collectionChanges) ++ map snd committed)%list.
Proof.
  unfold group_changes. revert collectionChanges.
  induction committed as [|pc committed IH]; intros collectionChanges;
    cbn [fold_left map].
  - by rewrite app_nil_r.
  - rewrite IH. unfold group_change. cbn zeta. rewrite concat_set_snoc.
    by rewrite <- app_assoc.
Qed.

Lemma Forall_set {V} (P : string * V -> Prop) (o : JsObject.t V) k v :
  Forall P o -> P (k, v) -> Forall P (JsObject.set k v o).
Proof.
  intros Ho Hkv. induction Ho as [|[k' v'] o Hk' Ho IH];
    cbn [JsObject.set]; [by repeat constructor |].
  destruct (decide (k' = k)); constructor; done.
Qed.

Lemma group_changes_nonempty committed collectionChanges :
  Forall (fun e => e.2 <> []) collectionChanges ->
  Forall (fun e => e.2 <> []) (group_changes collectionChanges committed).
Proof.
  unfold group_changes. revert collectionChanges.
  induction committed as [|pc committed IH]; intros collectionChanges Hne;
    [done |].
  cbn [fold_left]. apply IH. unfold group_change. cbn zeta.
  apply Forall_set; [done |]. cbn [snd].
  intros Hnil. by apply app_eq_nil in Hnil as [_ ?].
Qed.

(** ** The two phases of commit *)

Section CommitPhases.

Context {World : Type} {firestore : MockFirebaseFirestore World}.

Lemma adds_ret {A} sort (a : A) : adds (World := World) sort (ret a).
Proof. intros r. exists []. by rewrite app_nil_r. Qed.

Lemma adds_bind {A B} sort (m : M (Run World) A) (k : A -> M (Run World) B) :
  adds sort m -> (forall a, adds sort (k a)) -> adds sort (bind m k).
Proof.
  intros Hm Hk r. unfold bind. destruct (Hm r) as (l & Hl & Hsort).
  destruct (m r) as [r1 [a|e]]; cbn [fst] in *.
  - destruct (Hk a r1) as (l' & Hl' & Hsort').
    exists (l ++ l')%list. rewrite Hl', Hl, app_assoc.
    split; [done | by apply Forall_app].
  - by exists l.
Qed.

Lemma adds_perform {A} sort e (f : World -> World * Completion A) :
  sort e = true -> adds sort (perform e f).
Proof.
  intros He r. unfold perform. destruct (f (world r)) as [w c].
  exists [e]. cbn [fst effects]. split; [done | by constructor].
Qed.

Lemma adds_lift {A} sort (c : Completion A) :
  adds (World := World) sort (lift c).
Proof. intros r. exists []. by rewrite app_nil_r. Qed.

Lemma adds_commit_paths this entries collectionChanges :
  adds is_commitChange (commit_paths this entries collectionChanges).
Proof.
  revert collectionChanges.
  induction entries as [|[p operation] rest IH]; intros collectionChanges;
    cbn [commit_paths].
  - apply adds_ret.
  - apply adds_bind; [by apply adds_perform | intros documentChange].
    apply adds_bind; [apply adds_lift | intros changes]. apply IH.
Qed.

Lemma adds_fire_documents documentChanges :
  adds is_notification (fire_documents documentChanges).
Proof.
  induction documentChanges as [|document rest IH]; cbn [fire_documents].
  - apply adds_ret.
  - apply adds_bind; [by apply adds_perform | by intros _].
Qed.

Lemma adds_fire_collections entries :
  adds is_notification (fire_collections entries).
Proof.
  induction entries as [|[collectionId documentChanges] rest IH];
    cbn [fire_collections].
  - apply adds_ret.
  - apply adds_bind; [apply adds_fire_documents | intros _].
    apply adds_bind; [by apply adds_perform | by intros _].
Qed.

Lemma commit_results_length this entries w changes w' :
  commit_results this entries w changes w' -> length changes = length entries.
Proof.
  revert w changes.
  induction entries as [|[p operation] entries IH]; intros w [|c changes];
    cbn [commit_results length]; try done.
  intros (w1 & _ & Hrest). f_equal. by eapply IH.
Qed.

Lemma commit_paths_resolved this entries collectionChanges r r' collected :
  commit_paths this entries collectionChanges r = (r', Return collected) ->
  exists changes,
    commit_results this entries (world r) changes (world r')
    /\ collected
       = group_changes collectionChanges (zip (map fst entries) changes)
    /\ effects r'
       = (effects r ++ map (commit_effect this) entries)%list.
Proof.
  revert collectionChanges r.
  induction entries as [|[p operation] entries IH]; intros collectionChanges r;
    cbn [commit_paths].
  - intros [= <- <-]. exists []. by rewrite app_nil_r.
  - intros Hstep.
    apply commit_paths_step in Hstep as (w1 & c & E & _ & Hrest).
    apply IH in Hrest as (changes & Hres & -> & Heff).
    cbn [world effects] in *. exists (c :: changes).
    split; [by exists w1 |]. split; [done |].
    rewrite Heff. cbn [map]. by rewrite <- app_assoc.
Qed.

Lemma commit_effect_is_commitChange this entries :
  Forall (fun e => is_commitChange e = true)
         (map (commit_effect this) entries).
Proof. apply Forall_map. by apply Forall_true. Qed.

(** X12: in every run of [commit], resolved or rejected, the calls of
    [commitChange] all come before the first notification, and [rollback]
    comes last and only when [commit] rejects.  If a notification was
    fired at all, every staged path had been committed before it. *)
Theorem commit_phases this r :
  exists commits fired tail,
    effects (fst (commit this r))
    = (effects r ++ commits ++ fired ++ tail)%list
    /\ Forall (fun e => is_commitChange e = true) commits
    /\ Forall (fun e => is_notification e = true) fired
    /\ (tail = [] /\ snd (commit this r) = Resolved tt
        \/ tail = [ConsoleLog "rollback"]
           /\ exists e, snd (commit this r) = Rejected e)
    /\ (fired <> [] ->
        commits
        = map (commit_effect this)
              (JsObject.own_entries (transactionOperation this))).
Proof.
  rewrite commit_by_try. unfold commit_try, bind.
  destruct (commit_paths this _ JsObject.empty r) as [r1 [collected|e]] eqn:E1.
  - apply commit_paths_resolved in E1 as (changes & _ & _ & Heff1).
    destruct (adds_fire_collections (JsObject.own_entries collected) r1)
      as (fired & Heff2 & Hfired).
    destruct (fire_collections _ r1) as [r2 [[]|e]]; cbn [fst snd] in *.
    + exists (map (commit_effect this)
                (JsObject.own_entries (transactionOperation this))),
        fired, [].
      split; [by rewrite Heff2, Heff1, app_nil_r, <- app_assoc |].
      split; [apply commit_effect_is_commitChange |].
      split; [done |]. split; [by left | done].
    + exists (map (commit_effect this)
                (JsObject.own_entries (transactionOperation this))),
        fired, [ConsoleLog "rollback"].
      unfold logged. cbn [effects].
      split; [by rewrite Heff2, Heff1, <- !app_assoc |].
      split; [apply commit_effect_is_commitChange |].
      split; [done |]. split; [right; eauto | done].
  - destruct (adds_commit_paths this
                (JsObject.own_entries (transactionOperation this))
                JsObject.empty r) as (commits & Heff & Hcommits).
    rewrite E1 in Heff. cbn [fst snd] in *.
    exists commits, [], [ConsoleLog "rollback"].
    unfold logged. cbn [effects app]. rewrite Heff, <- app_assoc.
    split; [done |]. split; [done |]. split; [done |].
    split; [right; eauto | done].
Qed.

(** X13: a [commit] that resolves has called [commitChange] exactly once
    for each staged path, with the kind and the value staged for it, before
    any notification; when every staged path contains a ['/'] the calls
    follow the order in which the paths were first staged. *)
Theorem commit_commits_every_path this r r' :
  commit this r = (r', Resolved tt) ->
  exists commits fired,
    effects r' = (effects r ++ commits ++ fired)%list
    /\ commits ≡ₚ map (commit_effect this) (transactionOperation this)
    /\ Forall (fun e => is_notification e = true) fired
    /\ (Forall (fun p => JsString.has_char "/" p = true)
               (JsObject.keys (transactionOperation this)) ->
        commits = map (commit_effect this) (transactionOperation this)).
Proof.
  rewrite commit_by_try. unfold commit_try, bind.
  destruct (commit_paths this _ JsObject.empty r) as [r1 [collected|e]] eqn:E1;
    [|discriminate].
  apply commit_paths_resolved in E1 as (changes & _ & _ & Heff1).
  destruct (adds_fire_collections (JsObject.own_entries collected) r1)
    as (fired & Heff2 & Hfired).
  destruct (fire_collections _ r1) as [r2 [[]|e]]; [|discriminate].
  cbn [fst] in Heff2. intros [= <-].
  exists (map (commit_effect this)
            (JsObject.own_entries (transactionOperation this))), fired.
  split; [by rewrite Heff2, Heff1, <- app_assoc |].
  split; [apply Permutation_map, own_entries_perm |].
  split; [done |]. intros Hslash. rewrite own_entries_named; [done |].
  eapply Forall_impl; [exact Hslash |]. intros p. apply array_index_slash.
Qed.

End CommitPhases.

Lemma commit_commits_every_path_witness :
  exists commits fired,
    effects (fst (commit grouped_transaction sample_run))
    = (effects sample_run ++ commits ++ fired)%list
    /\ commits
       ≡ₚ map (commit_effect grouped_transaction)
              (transactionOperation grouped_transaction)
    /\ Forall (fun e => is_notification e = true) fired
    /\ (Forall (fun p => JsString.has_char "/" p = true)
               (JsObject.keys (transactionOperation grouped_transaction)) ->
        commits
        = map (commit_effect grouped_transaction)
              (transactionOperation grouped_transaction)).
Proof.
  apply (commit_commits_every_path grouped_transaction sample_run
           (fst (commit grouped_transaction sample_run))).
  reflexivity.
Defined.

(** ** Batches *)

Section CommitBatches.

Context {World : Type} {firestore : MockFirebaseFirestore World}.

Lemma commit_resolved_shape this r r' :
  commit this r = (r', Resolved tt) ->
  exists changes w1,
    commit_results this (JsObject.own_entries (transactionOperation this))
      (world r) changes w1
    /\ effects r'
       = (effects r
          ++ map (commit_effect this)
                 (JsObject.own_entries (transactionOperation this))
          ++ concat
               (map notifications
                  (JsObject.own_entries
                     (group_changes JsObject.empty
                        (zip (map fst (JsObject.own_entries
                                         (transactionOperation this)))
                             changes)))))%list.
Proof.
  rewrite commit_by_try. unfold commit_try, bind.
  destruct (commit_paths this _ JsObject.empty r) as [r1 [collected|e]] eqn:E1;
    [|discriminate].
  apply commit_paths_resolved in E1 as (changes & Hres & -> & Heff1).
  destruct (fire_collections _ r1) as [r2 [[]|e]] eqn:E2; [|discriminate].
  apply fire_collections_effects in E2. intros [= <-].
  exists changes, (world r1). split; [done |].
  by rewrite E2, Heff1, <- app_assoc.
Qed.

(** X14: for any number of staged paths, a [commit] that resolves tells
    each collection the changes of its own documents and no others, in the
    order in which they were committed: the batch filed under a collection
    path is the list of committed changes whose path has that collection
    path. *)
Theorem commit_batches_by_collection this r r' :
  commit this r = (r', Resolved tt) ->
  exists changes w1,
    let entries := JsObject.own_entries (transactionOperation this) in
    let committed := zip (map fst entries) changes in
    let grouped := group_changes JsObject.empty committed in
    commit_results this entries (world r) changes w1
    /\ effects r'
       = (effects r ++ map (commit_effect this) entries
          ++ concat (map notifications (JsObject.own_entries grouped)))%list
    /\ forall collectionPath,
         default [] (JsObject.get grouped collectionPath)
         = changes_in collectionPath committed.
Proof.
  intros Hcommit.
  apply commit_resolved_shape in Hcommit as (changes & w1 & Hres & Heff).
  exists changes, w1. cbn zeta. split; [done |]. split; [done |].
  intros collectionPath. by rewrite get_group_changes.
Qed.

(** X15: a [commit] that resolves sends one batch per collection, never an
    empty one, and the batches taken together hold every committed change
    exactly once. *)
Theorem commit_notifies_each_change_once this r r' :
  commit this r = (r', Resolved tt) ->
  exists changes w1 batches,
    let entries := JsObject.own_entries (transactionOperation this) in
    commit_results this entries (world r) changes w1
    /\ effects r'
       = (effects r ++ map (commit_effect this) entries
          ++ concat (map notifications batches))%list
    /\ NoDup (map fst batches)
    /\ Forall (fun batch => batch.2 <> []) batches
    /\ concat (map snd batches) ≡ₚ changes.
Proof.
  intros Hcommit.
  apply commit_resolved_shape in Hcommit as (changes & w1 & Hres & Heff).
  eexists changes, w1, _. cbn zeta. split; [done |]. split; [exact Heff |].
  split; [|split].
  - rewrite own_entries_perm.
    apply (wf_group_changes _ JsObject.empty), NoDup_nil_2.
  - rewrite own_entries_perm. by apply group_changes_nonempty.
  - rewrite own_entries_perm, concat_group_changes. cbn [map concat app].
    apply reflexive_eq, snd_zip.
    apply commit_results_length in Hres. rewrite length_map. lia.
Qed.

Lemma notifications_fired (batches : JsObject.t (list MockDocumentChange)) :
  Forall (fun e => is_notification e = true)
         (concat (map notifications batches)).
Proof.
  induction batches as [|[collectionId documentChanges] batches IH];
    cbn [map concat]; [done |].
  apply Forall_app. split; [|done]. unfold notifications. cbn [fst snd].
  apply Forall_app. split; [|by repeat constructor].
  apply Forall_map. by apply Forall_true.
Qed.

Lemma entries_for_nil {V} (o : JsObject.t V) k :
  entries_for k o = [] -> k ∉ JsObject.keys o.
Proof.
  unfold entries_for, JsObject.keys.
  induction o as [|[k' v] o IH]; [intros _; apply not_elem_of_nil |].
  rewrite filter_cons. cbn [fst map].
  destruct (decide (k' = k)) as [->|Hne]; [discriminate |].
  intros Hrest. apply not_elem_of_cons. split; [done | by apply IH].
Qed.

Lemma entries_for_single {V} (o : JsObject.t V) k e :
  entries_for k o = [e] ->
  exists before after,
    o = (before ++ e :: after)%list
    /\ (k ∉ JsObject.keys before) /\ (k ∉ JsObject.keys after).
Proof.
  induction o as [|[k' v] o IH]; [discriminate |].
  unfold entries_for. rewrite filter_cons. cbn [fst].
  destruct (decide (k' = k)) as [->|Hne].
  - intros [= <- Hrest]. exists [], o. split; [done |].
    split; [apply not_elem_of_nil | by apply entries_for_nil].
  - intros Hrest. destruct (IH Hrest) as (before & after & -> & Hb & Ha).
    exists ((k', v) :: before), after. split; [done |]. split; [|done].
    unfold JsObject.keys. cbn [map fst]. apply not_elem_of_cons. by split.
Qed.

(** X17: after [delete], whatever was staged before, a [commit] that
    resolves has called [commitChange] for the deleted path exactly once,
    with the kind [Removed] and no value: the calls for the other staged
    paths come before and after it, and all of them before the
    notifications. *)
Theorem deleted_path_commits_as_removed t documentRef r r' :
  JsObject.wf (transactionOperation t) ->
  commit (fst (delete documentRef t)) r = (r', Resolved tt) ->
  exists before after fired,
    (path documentRef ∉ JsObject.keys before)
    /\ (path documentRef ∉ JsObject.keys after)
    /\ JsObject.own_entries (transactionOperation (fst (delete documentRef t)))
       = (before ++ (path documentRef, Removed) :: after)%list
    /\ effects r'
       = (effects r
          ++ map (commit_effect (fst (delete documentRef t))) before
          ++ [CommitChange (doc (path documentRef)) Removed None]
          ++ map (commit_effect (fst (delete documentRef t))) after
          ++ fired)%list
    /\ Forall (fun e => is_notification e = true) fired.
Proof.
  intros Ho Hcommit.
  apply commit_resolved_shape in Hcommit as (changes & w1 & _ & Heff).
  assert (Hone :
    entries_for (path documentRef)
      (JsObject.own_entries (transactionOperation (fst (delete documentRef t))))
    = [(path documentRef, Removed)]).
  { rewrite delete_run. cbn zeta.
    cbn [fst transactionData transactionOperation set_transactionOperation
         set_transactionData set_modified].
    apply Permutation_singleton_r. unfold entries_for at 1.
    rewrite own_entries_perm. fold (entries_for (path documentRef)
      (JsObject.set (path documentRef) Removed (transactionOperation t))).
    by rewrite entries_for_set. }
  apply entries_for_single in Hone as (before & after & Hsplit & Hb & Ha).
  exists before, after. eexists. split; [done |]. split; [done |].
  split; [done |]. split; [|apply notifications_fired].
  rewrite Heff, Hsplit, map_app. cbn [map]. rewrite <- !app_assoc.
  do 2 f_equal. cbn [app]. f_equal.
  unfold commit_effect, js_get. rewrite delete_run. cbn zeta.
  cbn [fst snd transactionData set_transactionOperation set_transactionData
       set_modified].
  by rewrite get_set_eq.
Qed.

End CommitBatches.

Lemma commit_batches_by_collection_witness :
  exists changes w1,
    let entries :=
      JsObject.own_entries (transactionOperation grouped_transaction) in
    let committed := zip (map fst entries) changes in
    let grouped := group_changes JsObject.empty committed in
    commit_results grouped_transaction entries (world sample_run) changes w1
    /\ effects (fst (commit grouped_transaction sample_run))
       = (effects sample_run
          ++ map (commit_effect grouped_transaction) entries
          ++ concat (map notifications (JsObject.own_entries grouped)))%list
    /\ forall collectionPath,
         default [] (JsObject.get grouped collectionPath)
         = changes_in collectionPath committed.
Proof.
  apply (commit_batches_by_collection grouped_transaction sample_run
           (fst (commit grouped_transaction sample_run))).
  reflexivity.
Defined.

Lemma commit_notifies_each_change_once_witness :
  exists changes w1 batches,
    let entries :=
      JsObject.own_entries (transactionOperation grouped_transaction) in
    commit_results grouped_transaction entries (world sample_run) changes w1
    /\ effects (fst (commit grouped_transaction sample_run))
       = (effects sample_run
          ++ map (commit_effect grouped_transaction) entries
          ++ concat (map notifications batches))%list
    /\ NoDup (map fst batches)
    /\ Forall (fun batch => batch.2 <> []) batches
    /\ concat (map snd batches) ≡ₚ changes.
Proof.
  apply (commit_notifies_each_change_once grouped_transaction sample_run
           (fst (commit grouped_transaction sample_run))).
  reflexivity.
Defined.

Lemma deleted_path_commits_as_removed_witness :
  let t' := fst (delete alice grouped_transaction) in
  exists before after fired,
    ("users/alice" ∉ JsObject.keys before)
    /\ ("users/alice" ∉ JsObject.keys after)
    /\ JsObject.own_entries (transactionOperation t')
       = (before ++ ("users/alice", Removed) :: after)%list
    /\ effects (fst (commit t' sample_run))
       = (effects sample_run
          ++ map (commit_effect t') before
          ++ [CommitChange (doc "users/alice") Removed None]
          ++ map (commit_effect t') after
          ++ fired)%list
    /\ Forall (fun e => is_notification e = true) fired.
Proof.
  apply (deleted_path_commits_as_removed grouped_transaction alice sample_run
           (fst (commit (fst (delete alice grouped_transaction)) sample_run))).
  - unfold JsObject.wf. apply (bool_decide_unpack _). vm_compute. exact I.
  - reflexivity.
Defined.

(** ** Commit without writes, and paths without separator *)

Lemma after_calls_reads history t :
  existsb is_write history = false -> after_calls history t = t.
Proof.
  unfold after_calls. revert t.
  induction history as [|c history IH]; intros t; cbn [existsb fold_left];
    [done |].
  intros [Hc Hrest]%orb_false_iff.
  destruct c; [|discriminate..]. rewrite after_call_get. by apply IH.
Qed.

(** X16: committing a transaction on which only reads were made resolves
    at once: no call reaches the store, no notification is fired and
    [rollback] does not run. *)
Theorem commit_without_writes
    {World} {firestore : MockFirebaseFirestore World} history (r : Run World) :
  existsb is_write history = false ->
  commit (after_calls history new_transaction) r = (r, Resolved tt).
Proof. intros Hreads. by rewrite after_calls_reads. Qed.

Lemma commit_without_writes_witness :
  commit (after_calls [CallGet bob; CallGet alice] new_transaction) sample_run
  = (sample_run, Resolved tt).
Proof.
  apply (commit_without_writes [CallGet bob; CallGet alice] sample_run).
  reflexivity.
Defined.

(** X18: the collection path [commit] derives from a document path is all
    that precedes the last ['/'], so for [C/d] with no ['/'] in [d] it is
    [C], nested collections included; a path with no ['/'] at all is filed
    under the empty collection path. *)
Theorem collection_path_edges :
  (forall C d,
      JsString.has_char "/" d = false ->
      collectionPath_of (C +:+ "/" +:+ d) = C)
  /\ (forall p,
         JsString.has_char "/" p = false -> collectionPath_of p = "").
Proof.
  split; [apply collectionPath_of_document |].
  intros p Hp. unfold collectionPath_of, JsString.substr0.
  by rewrite lastIndexOf_absent.
Qed.

Lemma collection_path_edges_witness :
  collectionPath_of ("rooms/lobby/messages" +:+ "/" +:+ "m1")
  = "rooms/lobby/messages"
  /\ collectionPath_of "orphan" = "".
Proof.
  destruct collection_path_edges as [Hparent Hnone].
  split; [apply (Hparent "rooms/lobby/messages" "m1") | apply (Hnone "orphan")];
    reflexivity.
Defined.

(** ** Deleting twice, and listeners that throw *)

Lemma set_set {V} (o : JsObject.t V) k v v' :
  JsObject.set k v (JsObject.set k v' o) = JsObject.set k v o.
Proof.
  induction o as [|[k' v0] o IH]; cbn [JsObject.set].
  - by rewrite decide_True.
  - destruct (decide (k' = k)) as [->|Hne]; cbn [JsObject.set].
    + by rewrite decide_True.
    + rewrite decide_False by done. by rewrite IH.
Qed.

(** X19: [delete] is idempotent on the transaction: deleting a path a
    second time, through any handle of the same path, leaves the
    transaction exactly as the first [delete] left it. *)
Theorem delete_twice t documentRef again :
  path again = path documentRef ->
  fst (delete again (fst (delete documentRef t)))
  = fst (delete documentRef t).
Proof.
  intros Hpath. rewrite !delete_run. cbn zeta. cbn [fst]. rewrite Hpath.
  unfold set_transactionOperation, set_transactionData, set_modified.
  cbn [transactionData transactionOperation modified].
  by rewrite !set_set.
Qed.

Lemma delete_twice_witness :
  fst (delete bob (fst (delete bob grouped_transaction)))
  = fst (delete bob grouped_transaction).
Proof. apply (delete_twice grouped_transaction bob bob). reflexivity. Defined.

Section ListenerFailure.

Context {World : Type} {firestore : MockFirebaseFirestore World}.

Lemma commit_paths_of_results this entries collectionChanges r changes w1 :
  Forall (fun entry => inherited (collectionPath_of entry.1) = false) entries ->
  commit_results this entries (world r) changes w1 ->
  commit_paths this entries collectionChanges r
  = ({| world := w1;
        effects := (effects r ++ map (commit_effect this) entries)%list |},
     Return (group_changes collectionChanges (zip (map fst entries) changes))).
Proof.
  revert collectionChanges r changes.
  induction entries as [|[p operation] entries IH];
    intros collectionChanges r [|c changes] Hnames; cbn [commit_results];
    try done.
  - intros ->. cbn [commit_paths map]. unfold ret. rewrite app_nil_r.
    by destruct r.
  - intros (w2 & Hcall & Hrest). apply Forall_cons in Hnames as [Hp Hnames].
    cbn [fst] in Hp. cbn [commit_paths]. unfold bind, perform, lift.
    rewrite Hcall.
    assert (Hpush : push_change collectionChanges (collectionPath_of p) c
              = Return (default []
                          (JsObject.get collectionChanges (collectionPath_of p))
                        ++ [c])%list).
    { unfold push_change. rewrite Hp.
      by destruct (JsObject.get collectionChanges (collectionPath_of p)). }
    rewrite Hpush.
    rewrite (IH _ {| world := w2; effects := (effects r ++ _)%list |}
               changes Hnames Hrest).
    cbn [effects map zip zip_with fold_left group_changes].
    by rewrite <- app_assoc.
Qed.

(** X20: [commit] gives no all-or-nothing guarantee.  When every staged
    path has been committed, none of them in a collection named like a
    member of [Object.prototype], and a notification then throws, [commit]
    runs [rollback], which undoes nothing, and rejects with that error: the
    store is left as the notification left it, every [commitChange]
    applied. *)
Theorem listener_failure_keeps_commits this r changes w1 r2 e :
  let entries := JsObject.own_entries (transactionOperation this) in
  let grouped :=
    group_changes JsObject.empty (zip (map fst entries) changes) in
  Forall (fun entry => inherited (collectionPath_of entry.1) = false) entries ->
  commit_results this entries (world r) changes w1 ->
  fire_collections (JsObject.own_entries grouped)
    {| world := w1;
       effects := (effects r ++ map (commit_effect this) entries)%list |}
  = (r2, Throw e) ->
  commit this r
  = ({| world := world r2;
        effects := (effects r2 ++ [ConsoleLog "rollback"])%list |},
     Rejected e)
  /\ exists fired,
       effects r2
       = (effects r ++ map (commit_effect this) entries ++ fired)%list
       /\ Forall (fun f => is_notification f = true) fired.
Proof.
  intros entries grouped Hnames Hres Hfire. subst entries grouped. split.
  - rewrite commit_by_try. unfold commit_try, bind.
    rewrite (commit_paths_of_results _ _ _ _ changes w1) by done.
    by rewrite Hfire.
  - destruct (adds_fire_collections
                (JsObject.own_entries
                   (group_changes JsObject.empty
                      (zip (map fst (JsObject.own_entries
                                       (transactionOperation this)))
                           changes)))
                {| world := w1;
                   effects := (effects r
                               ++ map (commit_effect this)
                                    (JsObject.own_entries
                                       (transactionOperation this)))%list |})
      as (fired & Heff & Hfired).
    rewrite Hfire in Heff. cbn [fst effects] in Heff.
    exists fired. by rewrite Heff, <- app_assoc.
Qed.

Lemma get_is_Some_keys {V} (o : JsObject.t V) k :
  is_Some (JsObject.get o k) <-> k ∈ JsObject.keys o.
Proof.
  unfold JsObject.keys. induction o as [|[k' v] o IH]; cbn [JsObject.get map fst].
  - split; [by intros [? ?] | by intros ?%elem_of_nil].
  - destruct (decide (k' = k)) as [->|Hne].
    + split; [intros _; apply list_elem_of_here | by eexists].
    + rewrite IH. split; [apply list_elem_of_further |].
      intros [?|?]%elem_of_cons; [congruence | done].
Qed.

Lemma commit_paths_own_keys this entries collectionChanges r r' collected :
  commit_paths this entries collectionChanges r = (r', Return collected) ->
  Forall (fun k => inherited k = false) (JsObject.keys collectionChanges) ->
  Forall (fun k => inherited k = false) (JsObject.keys collected).
Proof.
  revert collectionChanges r.
  induction entries as [|[p operation] entries IH]; intros collectionChanges r.
  - cbn [commit_paths]. by intros [= <- <-].
  - intros Hstep Hkeys.
    apply commit_paths_step in Hstep as (w1 & c & _ & Hown & Hrest).
    eapply IH; [exact Hrest |]. rewrite keys_set.
    destruct (decide (collectionPath_of p ∈ JsObject.keys collectionChanges))
      as [Hin|Hnin]; [done |].
    apply Forall_app. split; [done |]. constructor; [|done].
    destruct Hown as [Hsome|Hname]; [|done].
    by apply get_is_Some_keys in Hsome.
Qed.

(** X21: a staged document whose collection path is named like a member of
    [Object.prototype] ([constructor], [toString], ...) makes [commit]
    fail: once the paths before it are committed and its own
    [commitChange] has returned, grouping throws a [TypeError]; [commit]
    runs [rollback] and rejects with it, the change staying committed, no
    later path committed and no notification fired. *)
Theorem prototype_named_collection_rejects
    this r pre p operation post collected r1 w c :
  JsObject.own_entries (transactionOperation this)
  = (pre ++ (p, operation) :: post)%list ->
  commit_paths this pre JsObject.empty r = (r1, Return collected) ->
  commitChange (doc p) operation (js_get (transactionData this) p) (world r1)
  = (w, Return c) ->
  inherited (collectionPath_of p) = true ->
  commit this r
  = ({| world := w;
        effects :=
          (effects r1
           ++ [CommitChange (doc p) operation
                 (js_get (transactionData this) p);
               ConsoleLog "rollback"])%list |},
     Rejected (TypeError "changes.push is not a function")).
Proof.
  intros Hkeys Hpre Hcall Hname.
  assert (Hown : JsObject.get collected (collectionPath_of p) = None).
  { apply commit_paths_own_keys in Hpre; [|by constructor].
    destruct (JsObject.get collected (collectionPath_of p)) eqn:Hget; [|done].
    assert (Hin : collectionPath_of p ∈ JsObject.keys collected)
      by (apply get_is_Some_keys; by eexists).
    rewrite Forall_forall in Hpre. apply Hpre in Hin. congruence. }
  rewrite commit_by_try. unfold commit_try. rewrite Hkeys. unfold bind at 1.
  rewrite commit_paths_app. unfold bind at 1. rewrite Hpre.
  cbn [commit_paths]. unfold bind, perform, lift. rewrite Hcall.
  unfold push_change. rewrite Hown, Hname.
  unfold logged. cbn [world effects]. by rewrite <- app_assoc.
Qed.

End ListenerFailure.

Lemma listener_failure_keeps_commits_witness :
  snd (commit (firestore := deaf_store) grouped_transaction deaf_run)
  = Rejected (CollaboratorError "listener failed")
  /\ world (fst (commit (firestore := deaf_store) grouped_transaction deaf_run))
     = ["users/alice"; "rooms/lobby"; "users/bob"].
Proof.
  destruct (listener_failure_keeps_commits (firestore := deaf_store)
              grouped_transaction deaf_run
              [sample_change (spec_handle "users/alice" None) Added
                 (Some payload_ab);
               sample_change (spec_handle "rooms/lobby" None) Added
                 (Some payload_ab);
               sample_change (spec_handle "users/bob" None) Modified
                 (Some merged_abc)]
              ["users/alice"; "rooms/lobby"; "users/bob"]
              (fst (commit_try (firestore := deaf_store)
                      grouped_transaction deaf_run))
              (CollaboratorError "listener failed"))
    as [Hcommit _].
  - repeat constructor.
  - cbn. eexists. split; [reflexivity |]. eexists. split; [reflexivity |].
    eexists. split; reflexivity.
  - reflexivity.
  - rewrite Hcommit. split; reflexivity.
Defined.

Lemma prototype_named_collection_rejects_witness :
  snd (commit prototype_transaction sample_run)
  = Rejected (TypeError "changes.push is not a function")
  /\ effects (fst (commit prototype_transaction sample_run))
     = [CommitChange (doc "users/alice") Added (Some payload_ab);
        CommitChange (doc "constructor/a") Added (Some payload_ab);
        ConsoleLog "rollback"].
Proof.
  rewrite (prototype_named_collection_rejects prototype_transaction sample_run
             [("users/alice", Added)] "constructor/a" Added []
             [("users",
               [sample_change (spec_handle "users/alice" None) Added
                  (Some payload_ab)])]
             (fst (commit_paths prototype_transaction
                     [("users/alice", Added)] JsObject.empty sample_run))
             (<["constructor/a" := Some payload_ab]>
                {[ "users/alice" := Some payload_ab ]})
             (sample_change (spec_handle "constructor/a" None) Added
                (Some payload_ab))).
  - split; reflexivity.
  - reflexivity.
  - reflexivity.
  - reflexivity.
  - reflexivity.
Defined.

Lemma commit_phases_witness :
  exists commits fired tail,
    effects (fst (commit failing_transaction sample_run))
    = (effects sample_run ++ commits ++ fired ++ tail)%list
    /\ Forall (fun e => is_commitChange e = true) commits
    /\ Forall (fun e => is_notification e = true) fired
    /\ (tail = [] /\ snd (commit failing_transaction sample_run) = Resolved tt
        \/ tail = [ConsoleLog "rollback"]
           /\ exists e, snd (commit failing_transaction sample_run) = Rejected e)
    /\ (fired <> [] ->
        commits
        = map (commit_effect failing_transaction)
              (JsObject.own_entries (transactionOperation failing_transaction))).
Proof. exact (commit_phases failing_transaction sample_run). Defined.
